(** * Caller attribution: the stack-walking resolvers and the record filter

    A shallow embedding of [py/caller_resolver.py] (the set-based resolvers
    [resolve_caller_module] and [resolve_caller_filename]), of
    [py/caller_resolver_bak.py] (the tuple-based resolver [aaa]) and of
    [py/logkit/filters.py] ([CallerInfoFilter]), followed by the properties
    the specification states about them.

    The live call stack that [inspect.currentframe()] hands to a resolver is
    an explicit argument: the list of activation records from the resolver's
    own frame outwards.  The empty list is the [None] frame, and the tail of
    a list is the [f_back] of its head. *)

From Stdlib Require Import ZArith Ascii String List Bool Lia.
From stdpp Require Import gmap strings list.

Local Open Scope string_scope.
Local Open Scope Z_scope.

(* ===================================================================== *)
(** * Python strings and collections *)
(* ===================================================================== *)

(** [module_name.startswith(prefix)]. *)
Fixpoint startswith (s prefix : string) {struct prefix} : bool :=
  match prefix, s with
  | EmptyString, _ => true
  | String _ _, EmptyString => false
  | String c prefix', String d s' =>
      if Ascii.eqb c d then startswith s' prefix' else false
  end.

(** [pattern in caller_path] on two strings: [pattern] starts at some
    offset of [caller_path]. *)
Fixpoint str_in (pattern s : string) : bool :=
  startswith s pattern
  || match s with
     | EmptyString => false
     | String _ s' => str_in pattern s'
     end.

(** Truth value of a string: [if module_name]. *)
Definition truthy (s : string) : bool :=
  match s with EmptyString => false | String _ _ => true end.

(** [any(test(x) for x in xs)] over a set, and the [for ... break] loop that
    raises a flag on the first hit: both visit the elements in iteration
    order and stop at the first one passing [test]. *)
Definition any_in (test : string → bool) (xs : gset string) : bool :=
  existsb test (elements xs).

(** Truth value of a set: [not prefix_set] is [negb (nonempty prefix_set)]. *)
Definition nonempty (xs : gset string) : bool :=
  match elements xs with [] => false | _ :: _ => true end.

(** The platform's string services, not part of the repository:
    [str.lower] and [pathlib.Path(p).name]. *)
Class Platform := {
  lower : string → string;
  Path_name : string → string;
}.

(** One platform to run the definitions on: ASCII case folding and the
    last component of a POSIX path. *)
Definition ascii_lower_char (c : ascii) : ascii :=
  let n := nat_of_ascii c in
  if (65 <=? n)%nat && (n <=? 90)%nat then ascii_of_nat (n + 32) else c.

Fixpoint ascii_lower (s : string) : string :=
  match s with
  | EmptyString => EmptyString
  | String c s' => String (ascii_lower_char c) (ascii_lower s')
  end.

(** Components of a path between ["/"] separators, the last one first. *)
Fixpoint components (s cur : string) (acc : list string) : list string :=
  match s with
  | EmptyString => cur :: acc
  | String c s' =>
      if Ascii.eqb c "/"%char then components s' EmptyString (cur :: acc)
      else components s' (cur +:+ String c EmptyString) acc
  end.

Definition posix_name (p : string) : string :=
  match List.filter (λ c, negb (String.eqb c "" || String.eqb c "."))
                    (components p EmptyString []) with
  | last :: _ => last
  | [] => EmptyString
  end.

Definition posix : Platform :=
  {| lower := ascii_lower; Path_name := posix_name |}.

(* ===================================================================== *)
(** * Results, exceptions and frames *)
(* ===================================================================== *)

(** What a resolver returns: [str | MissingMark]. *)
Inductive result :=
  | Str (s : string)
  | MISSING.

(** An exception object, identified by its class name.  Only subclasses of
    [Exception] are modelled. *)
Inductive exn := Exception (class : string).

(** How a block of statements completes: it runs to its end, it executes a
    [return], or it raises. *)
Inductive completion :=
  | Normal
  | Return (v : result)
  | Raise (e : exn).

(** How a call ends for its caller. *)
Inductive outcome (A : Type) :=
  | Returned (v : A)
  | Raised (e : exn).
Arguments Returned {A} v.
Arguments Raised {A} e.

(** Reading an attribute of a frame either yields the value or faults. *)
Inductive read (A : Type) :=
  | Value (a : A)
  | Fault (e : exn).
Arguments Value {A} a.
Arguments Fault {A} e.

(** A frame, as far as the resolvers look at it:
    [frame.f_globals.get("__name__", "")] and [frame.f_code.co_filename]. *)
Record Frame := {
  f_globals_name : read string;
  f_code_co_filename : read string;
}.

(** A frame both of whose reads succeed. *)
Definition plain_frame (module_name caller_path : string) : Frame :=
  {| f_globals_name := Value module_name;
     f_code_co_filename := Value caller_path |}.

(** The globals of the module a resolver is defined in. *)
Record module_ns := {
  __name__ : string;
  __file__ : string;
}.

(** The exclusion argument, [str | Collection[str] | None]. *)
Inductive excluded (C : Type) :=
  | ExNone
  | ExStr (s : string)
  | ExColl (c : C).
Arguments ExNone {C}.
Arguments ExStr {C} s.
Arguments ExColl {C} c.

(** [for _ in range(stack_start): if frame is None: return ...;
    frame = frame.f_back].  [None] is the early return, [Some frame] the
    frame the loop ends on. *)
Fixpoint skip_frames (n : nat) (frame : list Frame) : option (list Frame) :=
  match n with
  | O => Some frame
  | S n' =>
      match frame with
      | [] => None
      | _ :: f_back => skip_frames n' f_back
      end
  end.

(** [max_stack_depth is None or inspected < max_stack_depth]. *)
Definition within_depth (max_stack_depth : option Z) (inspected : Z) : bool :=
  match max_stack_depth with
  | None => true
  | Some d => inspected <? d
  end.

(* ===================================================================== *)
(** * caller_resolver.py: resolve_caller_module *)
(* ===================================================================== *)

(** The acceptance test of the module loop:
    [module_name and (not prefix_set or not any(...startswith...))]. *)
Definition module_accepted (prefix_set : gset string) (module_name : string)
  : bool :=
  truthy module_name
  && (negb (nonempty prefix_set)
      || negb (any_in (λ prefix, startswith module_name prefix) prefix_set)).

(** The [while] loop of [resolve_caller_module]. *)
Fixpoint module_loop (max_stack_depth : option Z) (prefix_set : gset string)
    (frame : list Frame) (inspected : Z) : completion :=
  match frame with
  | [] => Normal
  | f :: f_back =>
      if within_depth max_stack_depth inspected then
        match f_globals_name f with
        | Fault e => Raise e
        | Value module_name =>
            if module_accepted prefix_set module_name then
              Return (Str module_name)
            else module_loop max_stack_depth prefix_set f_back (inspected + 1)
        end
      else Normal
  end.

(** [__name__ if fallback_to_current else MISSING]. *)
Definition current_or_missing (ns : module_ns) (fallback_to_current : bool)
  : result :=
  if fallback_to_current then Str (__name__ ns) else MISSING.

(** The normalisation at the head of [resolve_caller_module]. *)
Definition prefix_set_of (excluded_prefixes : excluded (gset string))
  : gset string :=
  match excluded_prefixes with
  | ExNone => ∅
  | ExStr s => {[ s ]}
  | ExColl c => c
  end.

Definition resolve_caller_module (ns : module_ns)
    (stack_start : Z) (max_stack_depth : option Z)
    (excluded_prefixes : excluded (gset string))
    (fallback_to_current : bool) (frame : list Frame) : outcome result :=
  let prefix_set := prefix_set_of excluded_prefixes in
  let try_block :=
    match skip_frames (Z.to_nat stack_start) frame with
    | None => Return (current_or_missing ns fallback_to_current)
    | Some frame => module_loop max_stack_depth prefix_set frame 0
    end in
  (* [finally: del frame] changes no completion *)
  match try_block with
  | Return v => Returned v
  | Raise e => Raised e
  | Normal => Returned (current_or_missing ns fallback_to_current)
  end.

(* ===================================================================== *)
(** * caller_resolver_bak.py: aaa *)
(* ===================================================================== *)







(* ===================================================================== *)
(** * caller_resolver.py: resolve_caller_filename *)
(* ===================================================================== *)

Section FileResolver.
Context {platform : Platform}.

(** The module globals of [caller_resolver.py] and [sys.argv]. *)
Variable ns : module_ns.
Variable sys_argv : list string.

(** The pattern set used when [excluded_patterns is None]. *)
Definition default_patterns : gset string :=
  {[ __file__ ns;
     "logging/__init__.py";
     "<frozen importlib._bootstrap>";
     "<frozen importlib._bootstrap_external>";
     "importlib/__init__.py";
     "site-packages";
     "<stdin>";
     "<string>";
     "<";
     "venv/";
     ".venv/";
     "virtualenv/" ]}.

(** The normalisation at the head of [resolve_caller_filename]. *)
Definition pattern_set_of (excluded_patterns : excluded (gset string))
  : gset string :=
  match excluded_patterns with
  | ExNone => default_patterns
  | ExStr s => {[ s ]}
  | ExColl c => c
  end.

(** The markers of the second, case-insensitive check. *)
Definition venv_patterns : list string := ["venv"; ".venv"; "virtualenv"].

(** The value of [should_exclude] once both checks have run on a path
    that was not seen before. *)
Definition should_exclude (pattern_set : gset string) (caller_path : string)
  : bool :=
  let should_exclude :=
    any_in (λ pattern, str_in pattern caller_path) pattern_set in
  let caller_path_lower := lower caller_path in
  if negb should_exclude
     && existsb (λ venv_pattern, str_in venv_pattern caller_path_lower)
                venv_patterns
  then true
  else should_exclude.

(** [Path(p).name if return_basename else p]. *)
Definition rendered (return_basename : bool) (p : string) : string :=
  if return_basename then Path_name p else p.

(** The fallbacks, written twice in the source: in the skip loop
    (lines 289-294) and after the [try] statement (lines 339-344). *)
Definition fallbacks (return_basename fallback_to_argv fallback_to_current
    : bool) : result :=
  match (if fallback_to_argv then sys_argv else []) with
  | path :: _ => Str (rendered return_basename path)
  | [] =>
      if fallback_to_current
      then Str (rendered return_basename (__file__ ns))
      else MISSING
  end.

(** The [while] loop of [resolve_caller_filename]. *)
Fixpoint filename_loop (max_stack_depth : option Z)
    (pattern_set : gset string) (return_basename : bool)
    (frame : list Frame) (inspected : Z) (seen_files : gset string)
  : completion :=
  match frame with
  | [] => Normal
  | f :: f_back =>
      if within_depth max_stack_depth inspected then
        match f_code_co_filename f with
        | Fault e => Raise e
        | Value caller_path =>
            if bool_decide (caller_path ∉ seen_files) then
              let seen_files := {[ caller_path ]} ∪ seen_files in
              if negb (should_exclude pattern_set caller_path) then
                Return (Str (rendered return_basename caller_path))
              else
                filename_loop max_stack_depth pattern_set return_basename
                              f_back (inspected + 1) seen_files
            else
              filename_loop max_stack_depth pattern_set return_basename
                            f_back (inspected + 1) seen_files
        end
      else Normal
  end.

(** The body of the [try] statement. *)
Definition filename_try (stack_start : Z) (max_stack_depth : option Z)
    (pattern_set : gset string)
    (return_basename fallback_to_argv fallback_to_current : bool)
    (frame : list Frame) : completion :=
  match skip_frames (Z.to_nat stack_start) frame with
  | None =>
      Return (fallbacks return_basename fallback_to_argv fallback_to_current)
  | Some frame =>
      filename_loop max_stack_depth pattern_set return_basename frame 0 ∅
  end.

Definition resolve_caller_filename
    (stack_start : Z) (max_stack_depth : option Z)
    (excluded_patterns : excluded (gset string))
    (return_basename fallback_to_argv fallback_to_current : bool)
    (frame : list Frame) : outcome result :=
  let pattern_set := pattern_set_of excluded_patterns in
  match filename_try stack_start max_stack_depth pattern_set
          return_basename fallback_to_argv fallback_to_current frame with
  | Return v => Returned v
  | Raise _ (* except Exception: pass *)
  | Normal =>
      Returned (fallbacks return_basename fallback_to_argv
                          fallback_to_current)
  end.

End FileResolver.

(* ===================================================================== *)
(** * logkit/filters.py: CallerInfoFilter *)
(* ===================================================================== *)

(** Values held by the attributes of a log record. *)
Inductive object :=
  | ObjStr (s : string)
  | ObjMissing
  | ObjInt (z : Z)
  | ObjNone.

(** A resolver result as the object it is. *)
Definition object_of (r : result) : object :=
  match r with
  | Str s => ObjStr s
  | MISSING => ObjMissing
  end.

(** [setattr(record, name, value)] on a [logging.LogRecord], for a value
    that is a string or the [MISSING] marker.  The record is its attribute
    dictionary and the assignment stores one key, but for the three names
    the type keeps for itself: [__dict__] takes a dictionary only and
    [__class__] a class only ([TypeError]), and [__weakref__] is not
    writable ([AttributeError]). *)
Definition setattr (record : gmap string object) (name : string)
    (value : object) : outcome (gmap string object) :=
  if String.eqb name "__dict__" || String.eqb name "__class__" then
    Raised (Exception "TypeError")
  else if String.eqb name "__weakref__" then
    Raised (Exception "AttributeError")
  else Returned (<[ name := value ]> record).

(** The attribute names [setattr] can store on a record. *)
Definition writable (name : string) : Prop :=
  name ≠ "__dict__" ∧ name ≠ "__class__" ∧ name ≠ "__weakref__".

Module CallerInfoFilter.
Section Filter.
Context {platform : Platform}.

(** The module globals of [caller_resolver.py] and [sys.argv]. *)
Variable ns : module_ns.
Variable sys_argv : list string.

(** The instance attributes set by [__init__]. *)
Record t := {
  attribute_name : string;
  stack_offset : Z;
  fallback_to_argv : bool;
  exclude_patterns : gset string;
}.

(** [CallerInfoFilter.__init__]. *)
Definition __init__ (attribute_name : string)
    (exclude_patterns override_exclude_patterns : option (gset string))
    (stack_offset : Z) (fallback_to_argv : bool) : t :=
  {| attribute_name := attribute_name;
     stack_offset := stack_offset;
     fallback_to_argv := fallback_to_argv;
     exclude_patterns :=
       match override_exclude_patterns with
       | Some override => override
       | None =>
           let patterns : gset string :=
             {[ "logging/__init__.py";
                "<frozen importlib._bootstrap>";
                "<frozen importlib._bootstrap_external>";
                "importlib/__init__.py";
                "site-packages";
                "<stdin>";
                "<string>" ]} in
           match exclude_patterns with
           | Some extra =>
               if nonempty extra then patterns ∪ extra else patterns
           | None => patterns
           end
       end |}.

(** The frame of a running [resolve_caller_filename]: the one
    [inspect.currentframe()] returns inside it. *)
Definition resolver_frame : Frame :=
  plain_frame (__name__ ns) (__file__ ns).

(** [CallerInfoFilter.filter].  [frame] is the stack at the call, the
    frame of [filter] first; the record is its attribute dictionary. *)
Definition filter (self : t) (record : gmap string object)
    (frame : list Frame) : outcome (gmap string object * bool) :=
  match resolve_caller_filename ns sys_argv (8 + stack_offset self) None
          (ExColl (exclude_patterns self)) true (fallback_to_argv self) true
          (resolver_frame :: frame) with
  | Returned caller =>
      match setattr record (attribute_name self) (object_of caller) with
      | Returned record => Returned (record, true)
      | Raised e => Raised e
      end
  | Raised e => Raised e
  end.

End Filter.
End CallerInfoFilter.


(** [s] contains [pattern]: some text, the pattern, some text. *)
Definition occurs_in (pattern s : string) : Prop :=
  ∃ before after, s = before +:+ pattern +:+ after.

(** [prefix] is an initial segment of [s]. *)
Definition is_prefix_of (prefix s : string) : Prop :=
  ∃ rest, s = prefix +:+ rest.

(** A module identifier is internal when it is empty or starts with one
    of the prefixes. *)
Definition module_internal (prefix_set : gset string) (module_name : string)
  : Prop :=
  module_name = ""
  ∨ ∃ prefix, prefix ∈ prefix_set ∧ is_prefix_of prefix module_name.

(** A frame whose module identifier reads as an internal one. *)
Definition module_rejected (prefix_set : gset string) (f : Frame) : Prop :=
  ∃ module_name,
    f_globals_name f = Value module_name
    ∧ module_internal prefix_set module_name.

(** A path is internal when a pattern of the set occurs in it, or one of
    the environment markers occurs in its case-folded form. *)
Definition path_internal {platform : Platform} (pattern_set : gset string)
    (caller_path : string) : Prop :=
  (∃ pattern, pattern ∈ pattern_set ∧ occurs_in pattern caller_path)
  ∨ (∃ marker, marker ∈ ["venv"; ".venv"; "virtualenv"]
               ∧ occurs_in marker (lower caller_path)).

(** A frame whose path reads as an internal one. *)
Definition file_rejected {platform : Platform} (pattern_set : gset string)
    (f : Frame) : Prop :=
  ∃ caller_path,
    f_code_co_filename f = Value caller_path
    ∧ path_internal pattern_set caller_path.

(** The frames of a run the file loop passes over: each one reads a path
    that was seen before or is internal. *)
Fixpoint passed_over {platform : Platform} (pattern_set : gset string)
    (seen_files : gset string) (frames : list Frame) : Prop :=
  match frames with
  | [] => True
  | f :: frames =>
      ∃ caller_path,
        f_code_co_filename f = Value caller_path
        ∧ (caller_path ∈ seen_files ∨ path_internal pattern_set caller_path)
        ∧ passed_over pattern_set ({[ caller_path ]} ∪ seen_files) frames
  end.

(** The seen set after the loop has read the paths of [frames]. *)
Fixpoint seen_after (seen_files : gset string) (frames : list Frame)
  : gset string :=
  match frames with
  | [] => seen_files
  | f :: frames =>
      match f_code_co_filename f with
      | Value caller_path => seen_after ({[ caller_path ]} ∪ seen_files) frames
      | Fault _ => seen_after seen_files frames
      end
  end.

(** The conditions under which the loop accepts no frame: the stack is
    shorter than the skip count, or every frame the loop inspects is passed
    over until the stack ends or the depth limit is reached. *)
Definition no_frame_accepted {platform : Platform} (stack_start : Z) (max_stack_depth : option Z)
    (pattern_set : gset string) (stack : list Frame) : Prop :=
  (length stack < Z.to_nat stack_start)%nat
  ∨ ∃ skipped rejected rest : list Frame,
      stack = (skipped ++ rejected ++ rest)%list
      ∧ length skipped = Z.to_nat stack_start
      ∧ passed_over pattern_set ∅ rejected
      ∧ (rest = []
         ∨ within_depth max_stack_depth (Z.of_nat (length rejected)) = false).

(* ===================================================================== *)
(** * caller_resolver_bak.py: bbb *)
(* ===================================================================== *)

(** [xs[start:]]: a negative [start] counts from the end and is clipped at
    the head of the list. *)
Definition slice_from {A : Type} (start : Z) (xs : list A) : list A :=
  if 0 <=? start then drop (Z.to_nat start) xs
  else drop (length xs - Z.to_nat (- start)) xs.

Section LegacyFileResolver.
Context {platform : Platform}.

(** The module globals of [caller_resolver_bak.py] and [sys.argv]. *)
Variable ns : module_ns.
Variable sys_argv : list string.

(** The pattern set of [bbb] when [exclude_patterns is None]. *)
Definition bbb_default_patterns : gset string :=
  {[ __file__ ns;
     "logging/__init__.py";
     "<frozen importlib._bootstrap>";
     "<frozen importlib._bootstrap_external>";
     "importlib/__init__.py";
     "site-packages";
     "<stdin>";
     "<string>" ]}.

(** The [for frame_info in stack] loop of [bbb], over the
    [frame_info.filename] of the entries. *)
Fixpoint bbb_loop (exclude_patterns : gset string) (stack : list string)
    (seen_files : gset string) : completion :=
  match stack with
  | [] => Normal
  | caller_path :: stack =>
      if bool_decide (caller_path ∈ seen_files) then
        bbb_loop exclude_patterns stack seen_files
      else
        let seen_files := {[ caller_path ]} ∪ seen_files in
        if any_in (λ pattern, str_in pattern caller_path) exclude_patterns
        then bbb_loop exclude_patterns stack seen_files
        else if str_in "<" caller_path
                || str_in "venv" (lower caller_path)
                || str_in ".venv" (lower caller_path)
                || str_in "virtualenv" (lower caller_path)
        then bbb_loop exclude_patterns stack seen_files
        else Return (Str (Path_name caller_path))
  end.

(** [bbb].  [inspect_stack] is what [inspect.stack()] gives at the call:
    the file names of its entries, the one of [bbb] first, or the exception
    it raises.  The fallbacks, written three times in the source, are
    those of [resolve_caller_filename] with base names. *)
Definition bbb (stack_start : Z) (exclude_patterns : option (gset string))
    (fallback_to_argv fallback_to_current : bool)
    (inspect_stack : read (list string)) : outcome result :=
  let exclude_patterns :=
    match exclude_patterns with
    | None => bbb_default_patterns
    | Some patterns => patterns
    end in
  match inspect_stack with
  | Fault _ (* except Exception *) =>
      Returned (fallbacks ns sys_argv true fallback_to_argv
                          fallback_to_current)
  | Value entries =>
      let stack := slice_from stack_start entries in
      match bbb_loop exclude_patterns stack ∅ with
      | Return v => Returned v
      | Raise e => Raised e
      | Normal =>
          Returned (fallbacks ns sys_argv true fallback_to_argv
                              fallback_to_current)
      end
  end.

End LegacyFileResolver.

(* ===================================================================== *)
(** * logkit/filters.py: LevelRangeFilter *)
(* ===================================================================== *)

(** A bound of the level range: an [int] level, or [float("-inf")] or
    [float("inf")] for an open side. *)
Inductive bound :=
  | NegInf
  | Level (n : Z)
  | PosInf.

(** [a <= b] and [a < b] on bounds. *)
Definition bound_le (a b : bound) : bool :=
  match a, b with
  | NegInf, _ => true
  | _, PosInf => true
  | Level x, Level y => x <=? y
  | _, _ => false
  end.

Definition bound_lt (a b : bound) : bool :=
  match a, b with
  | NegInf, NegInf => false
  | PosInf, PosInf => false
  | NegInf, _ => true
  | _, PosInf => true
  | Level x, Level y => x <? y
  | _, _ => false
  end.

(** A level given to the constructor: [int | str]. *)
Inductive level_arg :=
  | LevelInt (n : Z)
  | LevelName (s : string).

Module LevelRangeFilter.
Section Filter.

(** [logging_utils.convert_level_to_int], which is not among the sources:
    it gives the number of a level or raises. *)
Variable convert_level_to_int : level_arg → outcome Z.

(** The instance attributes set by [__init__]; the two comparators are the
    bound methods [min_level.__le__] or [__lt__] and [max_level.__ge__] or
    [__gt__]. *)
Record t := {
  name : string;
  min_level : bound;
  max_level : bound;
  _min_comparator : Z → bool;
  _max_comparator : Z → bool;
}.

(** [LevelRangeFilter.__init__]. *)
Definition __init__ (min_level max_level : option level_arg)
    (min_inclusive max_inclusive : bool) (name : string) : outcome t :=
  match (match min_level with
         | Some arg =>
             match convert_level_to_int arg with
             | Returned n => Returned (Level n)
             | Raised e => Raised e
             end
         | None => Returned NegInf
         end) with
  | Raised e => Raised e
  | Returned lo =>
      match (match max_level with
             | Some arg =>
                 match convert_level_to_int arg with
                 | Returned n => Returned (Level n)
                 | Raised e => Raised e
                 end
             | None => Returned PosInf
             end) with
      | Raised e => Raised e
      | Returned hi =>
          Returned
            {| name := name;
               min_level := lo;
               max_level := hi;
               _min_comparator :=
                 if min_inclusive then λ levelno, bound_le lo (Level levelno)
                 else λ levelno, bound_lt lo (Level levelno);
               _max_comparator :=
                 if max_inclusive then λ levelno, bound_le (Level levelno) hi
                 else λ levelno, bound_lt (Level levelno) hi |}
      end
  end.

(** [LevelRangeFilter.filter], on [record.levelno]. *)
Definition filter (self : t) (levelno : Z) : bool :=
  if bound_lt (max_level self) (min_level self) then false
  else
    let pass_min_check := _min_comparator self levelno in
    let pass_max_check := _max_comparator self levelno in
    pass_min_check && pass_max_check.

End Filter.
End LevelRangeFilter.

(** The range test a filter built by [__init__] performs, on its side of
    each bound. *)
Definition above (lo : bound) (inclusive : bool) (levelno : Z) : Prop :=
  match lo with
  | NegInf => True
  | Level x => if inclusive then x ≤ levelno else x < levelno
  | PosInf => False
  end.

Definition below (hi : bound) (inclusive : bool) (levelno : Z) : Prop :=
  match hi with
  | PosInf => True
  | Level y => if inclusive then levelno ≤ y else levelno < y
  | NegInf => False
  end.

(** A bound argument of [__init__] and the bound it resolves to: the open
    bound for [None], the converted level otherwise. *)
Definition resolved_bound (convert_level_to_int : level_arg → outcome Z)
    (arg : option level_arg) (open : bound) (b : bound) : Prop :=
  match arg with
  | None => b = open
  | Some arg => ∃ n, convert_level_to_int arg = Returned n ∧ b = Level n
  end.

(* ===================================================================== *)
(** * setup_venv.py: parse_python_version *)
(* ===================================================================== *)

(** The name of an executable is the sequence of its characters, those
    with a code below 256.  Among them [\d] matches the ten ASCII digits
    and [\s] the characters Python counts as white space. *)
Definition is_digit (c : ascii) : bool :=
  let n := nat_of_ascii c in (48 <=? n)%nat && (n <=? 57)%nat.

Definition is_space (c : ascii) : bool :=
  existsb (Nat.eqb (nat_of_ascii c))
          [9; 10; 11; 12; 13; 28; 29; 30; 31; 32; 133; 160]%nat.

(** The regular expressions the pattern is made of.  A repetition is
    always that of one character class, as in [\s*], [\s+] and [\d+]. *)
Inductive regex :=
  | Lit (c : ascii)
  | Star (cls : ascii → bool)
  | Plus (cls : ascii → bool)
  | Seq (r1 r2 : regex)
  | Alt (r1 r2 : regex)
  | Opt (r : regex)
  | Group (name : string) (r : regex)
  | Dollar.

(** Greedy [cls*]: the longest run first, a shorter one when what follows
    fails. *)
Fixpoint star {R : Type} (cls : ascii → bool) (s : string)
    (k : string → option R) : option R :=
  match s with
  | String c s' =>
      if cls c then
        match star cls s' k with
        | Some out => Some out
        | None => k s
        end
      else k s
  | EmptyString => k s
  end.

(** Greedy [cls+]. *)
Definition plus {R : Type} (cls : ascii → bool) (s : string)
    (k : string → option R) : option R :=
  match s with
  | String c s' => if cls c then star cls s' k else None
  | EmptyString => None
  end.

(** The part of [s] read on the way to its suffix [s']. *)
Fixpoint take_chars (n : nat) (s : string) : string :=
  match n, s with
  | S n', String c s' => String c (take_chars n' s')
  | _, _ => EmptyString
  end.

Definition consumed (s s' : string) : string :=
  take_chars (String.length s - String.length s') s.

(** Backtracking matching under [re.IGNORECASE], with the rest of the
    match as a continuation: the alternatives are tried in the order of
    [re], and the groups hold what the successful attempt read. *)
Fixpoint rmatch (r : regex) (s : string) (groups : gmap string string)
    (k : string → gmap string string → option (gmap string string))
  : option (gmap string string) :=
  match r with
  | Lit c =>
      match s with
      | String x s' =>
          if Ascii.eqb (ascii_lower_char x) (ascii_lower_char c)
          then k s' groups else None
      | EmptyString => None
      end
  | Star cls => star cls s (λ s', k s' groups)
  | Plus cls => plus cls s (λ s', k s' groups)
  | Seq r1 r2 => rmatch r1 s groups (λ s' groups', rmatch r2 s' groups' k)
  | Alt r1 r2 =>
      match rmatch r1 s groups k with
      | Some out => Some out
      | None => rmatch r2 s groups k
      end
  | Opt r =>
      match rmatch r s groups k with
      | Some out => Some out
      | None => k s groups
      end
  | Group name r =>
      rmatch r s groups
        (λ s' groups', k s' (<[ name := consumed s s' ]> groups'))
  | Dollar =>
      match s with
      | EmptyString => k s groups
      | String c EmptyString =>
          if Ascii.eqb c "010"%char then k s groups else None
      | _ => None
      end
  end.

(** [re.match(pattern, s, re.IGNORECASE)]: the groups of the match, if
    there is one. *)
Definition re_match (pattern : regex) (s : string)
  : option (gmap string string) :=
  rmatch pattern s ∅ (λ _ groups, Some groups).

(** The pattern of [parse_python_version],
    [^python(?:\s*|\s+)?(?:(?P<major>\d+)(?:\.(?P<minor>\d+))?)?(?:\.\d+)?$],
    in its parts: the optional white space, the optional major and minor
    numbers, the optional third number and the end. *)
Definition spaces_part : regex := Opt (Alt (Star is_space) (Plus is_space)).

Definition minor_part : regex :=
  Opt (Seq (Lit ".") (Group "minor" (Plus is_digit))).

Definition numbers_part : regex :=
  Opt (Seq (Group "major" (Plus is_digit)) minor_part).

Definition third_part : regex := Opt (Seq (Lit ".") (Plus is_digit)).

Definition version_pattern : regex :=
  Seq (Lit "p") (Seq (Lit "y") (Seq (Lit "t") (Seq (Lit "h")
  (Seq (Lit "o") (Seq (Lit "n")
  (Seq spaces_part (Seq numbers_part (Seq third_part Dollar)))))))).

(** The number a string of decimal digits writes. *)
Definition digits_value (s : string) : Z :=
  fold_left (λ acc c, 10 * acc + Z.of_nat (nat_of_ascii c - 48))
            (list_ascii_of_string s) 0.

Fixpoint all_chars (cls : ascii → bool) (s : string) : bool :=
  match s with
  | EmptyString => true
  | String c s' => cls c && all_chars cls s'
  end.

Section ParseVersion.
Context {platform : Platform}.

(** [sys.get_int_max_str_digits()], [None] where conversions have no
    limit. *)
Variable int_max_str_digits : option nat.

(** [int(s)] on what a [\d+] group holds: a string that is not one of
    decimal digits, which no such group holds, and one longer than the
    limit are [ValueError]s. *)
Definition int (s : string) : outcome Z :=
  if truthy s && all_chars is_digit s then
    match int_max_str_digits with
    | Some limit =>
        if (limit <? String.length s)%nat
        then Raised (Exception "ValueError")
        else Returned (digits_value s)
    | None => Returned (digits_value s)
    end
  else Raised (Exception "ValueError").

(** The text is short enough for [int]. *)
Definition within_digit_limit (s : string) : Prop :=
  match int_max_str_digits with
  | Some limit => (String.length s ≤ limit)%nat
  | None => True
  end.

(** [parse_python_version]: [py_exec] is the path, [py_exec.name] its
    last component. *)
Definition parse_python_version (py_exec : string) : outcome (Z * Z) :=
  let version_str := Path_name py_exec in
  let match_ := re_match version_pattern version_str in
  let major := match match_ with
               | Some groups => groups !! "major"
               | None => None
               end in
  let minor := match match_ with
               | Some groups => groups !! "minor"
               | None => None
               end in
  match major with
  | Some major_str =>
      if truthy major_str then
        match int major_str with
        | Raised e => Raised e
        | Returned major =>
            match minor with
            | Some minor_str =>
                match int minor_str with
                | Raised e => Raised e
                | Returned minor => Returned (major, minor)
                end
            | None => Returned (major, -1)
            end
        end
      else Returned (-1, -1)
  | None => Returned (-1, -1)
  end.

End ParseVersion.

(** A string that does not go on with a character of the class. *)
Definition stops (cls : ascii → bool) (rest : string) : Prop :=
  match rest with
  | EmptyString => True
  | String c _ => cls c = false
  end.

(** The patterns all of whose groups are [\d+]. *)
Fixpoint digit_groups_only (r : regex) : Prop :=
  match r with
  | Group _ r' => r' = Plus is_digit
  | Seq r1 r2 | Alt r1 r2 => digit_groups_only r1 ∧ digit_groups_only r2
  | Opt r' => digit_groups_only r'
  | Lit _ | Star _ | Plus _ | Dollar => True
  end.

(** Groups that hold non-empty strings of digits of length [n] at most. *)
Definition digit_strings (n : nat) (groups : gmap string string) : Prop :=
  ∀ g v, groups !! g = Some v →
         v ≠ "" ∧ all_chars is_digit v = true ∧ (String.length v ≤ n)%nat.

(** What may follow the major and minor numbers: nothing, or a dot and a
    third number. *)
Definition third_rest (tail : string) : Prop :=
  tail = "" ∨ ∃ c, c ≠ "" ∧ all_chars is_digit c = true ∧ tail = "." +:+ c.

(** The window of a stack the loops can look at: what is left after the
    skipped frames, cut at the depth limit. *)
Definition window {A : Type} (stack_start : Z) (max_stack_depth : option Z)
    (stack : list A) : list A :=
  let rest := drop (Z.to_nat stack_start) stack in
  match max_stack_depth with
  | None => rest
  | Some d => take (Z.to_nat d) rest
  end.

(** A result with [f] applied to its string. *)
Definition map_result (f : string → string) (r : result) : result :=
  match r with
  | Str s => Str (f s)
  | MISSING => MISSING
  end.

(* ===================================================================== *)
(** * A sample installation *)
(* ===================================================================== *)

(** The globals of [caller_resolver.py] and of [caller_resolver_bak.py]
    as one installation has them, and one command line. *)
Definition sample_ns : module_ns :=
  {| __name__ := "utils.caller_resolver";
     __file__ := "/srv/utils/caller_resolver.py" |}.

Definition sample_ns_bak : module_ns :=
  {| __name__ := "utils.caller_resolver_bak";
     __file__ := "/srv/utils/caller_resolver_bak.py" |}.

Definition sample_argv : list string := ["/srv/run.py"; "--verbose"].

(** Frames of that installation. *)
Definition frame_resolver : Frame :=
  plain_frame "utils.caller_resolver" "/srv/utils/caller_resolver.py".
Definition frame_logging : Frame :=
  plain_frame "logging" "/usr/lib/python3.12/logging/__init__.py".
Definition frame_venv : Frame :=
  plain_frame "requests.api" "/home/u/.VENV/lib/requests/api.py".
Definition frame_app : Frame :=
  plain_frame "app.main" "/srv/app/main.py".
Definition frame_run : Frame :=
  plain_frame "__main__" "/srv/run.py".

(** A conversion of levels to run the range filter on: numbers as they
    are, the standard names, [ValueError] for any other name. *)
Definition sample_convert (arg : level_arg) : outcome Z :=
  match arg with
  | LevelInt n => Returned n
  | LevelName name =>
      if String.eqb name "DEBUG" then Returned 10
      else if String.eqb name "INFO" then Returned 20
      else if String.eqb name "WARNING" then Returned 30
      else if String.eqb name "ERROR" then Returned 40
      else if String.eqb name "CRITICAL" then Returned 50
      else Raised (Exception "ValueError")
  end.

(** The stack at a call of [CallerInfoFilter.filter] made for a log call
    of [app/main.py]: the filter, six frames of the logging package, the
    frame of the log call and the script that runs it. *)
Definition frame_filter : Frame :=
  plain_frame "utils.logkit.filters" "/srv/utils/logkit/filters.py".
Definition logging_stack : list Frame :=
  [frame_filter; frame_logging; frame_logging; frame_logging; frame_logging;
   frame_logging; frame_logging; frame_app; frame_run].

(** A frame neither of whose reads succeeds. *)
Definition frame_faulty : Frame :=
  {| f_globals_name := Fault (Exception "RuntimeError");
     f_code_co_filename := Fault (Exception "RuntimeError") |}.

(* ===================================================================== *)
(** * Strings and sets: what the tests compute *)
(* ===================================================================== *)

Lemma startswith_spec s prefix :
  startswith s prefix = true ↔ is_prefix_of prefix s.
Proof.
  unfold is_prefix_of. revert s.
  induction prefix as [|c prefix IH]; intros s; simpl.
  - split; [intros _; by exists s | done].
  - destruct s as [|d s].
    + split; [done | intros [rest Hrest]; discriminate].
    + destruct (Ascii.eqb_spec c d) as [->|Hne].
      * rewrite IH. split; intros [rest Hrest]; exists rest.
        -- by rewrite Hrest.
        -- by injection Hrest.
      * split; [done | intros [rest Hrest]; injection Hrest; congruence].
Qed.

Lemma str_in_spec pattern s :
  str_in pattern s = true ↔ occurs_in pattern s.
Proof.
  unfold occurs_in.
  induction s as [|c s IH]; simpl; rewrite orb_true_iff, startswith_spec.
  - split.
    + intros [[rest Hrest] | ?]; [|done]. by exists "", rest.
    + intros (before & after & Heq). left. exists after.
      destruct before; [done | discriminate].
  - rewrite IH. split.
    + intros [[rest Hrest] | (before & after & Heq)].
      * by exists "", rest.
      * exists (String c before), after. simpl. by rewrite Heq.
    + intros (before & after & Heq). destruct before as [|c' before].
      * left. by exists after.
      * right. exists before, after. simpl in Heq. by injection Heq.
Qed.

Lemma any_in_spec test xs :
  any_in test xs = true ↔ ∃ x, x ∈ xs ∧ test x = true.
Proof.
  unfold any_in. rewrite existsb_exists.
  split; intros (x & Hx & Ht); exists x; split; try done.
  - by apply elem_of_elements, list_elem_of_In.
  - by apply list_elem_of_In, elem_of_elements.
Qed.

Lemma any_in_empty test : any_in test ∅ = false.
Proof. unfold any_in. by rewrite elements_empty. Qed.

Lemma nonempty_false xs : nonempty xs = false ↔ xs = ∅.
Proof.
  unfold nonempty. split.
  - destruct (elements xs) eqn:E; [|done]. intros _. by apply elements_empty_inv, leibniz_equiv in E.
  - intros ->. by rewrite elements_empty.
Qed.

Lemma truthy_spec s : truthy s = true ↔ s ≠ "".
Proof. destruct s; simpl; split; congruence. Qed.

(** An empty set has no member to start with, so the emptiness test of
    the acceptance condition is subsumed by the [any]. *)
Lemma module_accepted_spec prefix_set module_name :
  module_accepted prefix_set module_name = true
  ↔ module_name ≠ ""
    ∧ ¬ ∃ prefix, prefix ∈ prefix_set ∧ is_prefix_of prefix module_name.
Proof.
  unfold module_accepted.
  rewrite andb_true_iff, orb_true_iff, !negb_true_iff, truthy_spec.
  rewrite nonempty_false.
  split; intros [Hne H]; split; try done.
  - intros (prefix & Hin & Hpre). destruct H as [-> | H].
    + set_solver.
    + assert (any_in (λ p, startswith module_name p) prefix_set = true) as E
        by (apply any_in_spec; exists prefix; by rewrite startswith_spec).
      congruence.
  - right. apply not_true_is_false. intros E.
    apply any_in_spec in E as (prefix & Hin & Hpre).
    apply H. exists prefix. by rewrite <- startswith_spec.
Qed.

(* ===================================================================== *)
(** * The skip phase and the depth test *)
(* ===================================================================== *)

Lemma skip_frames_app skipped rest :
  skip_frames (length skipped) (skipped ++ rest) = Some rest.
Proof. induction skipped as [|f skipped IH]; simpl; done. Qed.

Lemma skip_frames_short n (stack : list Frame) :
  (length stack < n)%nat → skip_frames n stack = None.
Proof.
  revert stack. induction n as [|n IH]; intros [|f stack] Hlen; simpl in *;
    try lia; [done | apply IH; lia].
Qed.

Lemma skip_frames_drop n (stack : list Frame) :
  (n ≤ length stack)%nat → skip_frames n stack = Some (drop n stack).
Proof.
  revert stack. induction n as [|n IH]; intros [|f stack] Hlen; simpl in *;
    try lia; try done. apply IH; lia.
Qed.

Lemma within_depth_mono max_stack_depth i j :
  i ≤ j → within_depth max_stack_depth j = true →
  within_depth max_stack_depth i = true.
Proof.
  destruct max_stack_depth as [d|]; simpl; [|done].
  rewrite !Z.ltb_lt. lia.
Qed.

(* ===================================================================== *)
(** * The module loop *)
(* ===================================================================== *)

Lemma module_accepted_false prefix_set module_name :
  module_accepted prefix_set module_name = false
  ↔ module_internal prefix_set module_name.
Proof.
  unfold module_internal.
  rewrite <- not_true_iff_false, module_accepted_spec. split.
  - intros H. destruct (decide (module_name = "")) as [|Hne]; [by left|].
    right. destruct (any_in (λ p, startswith module_name p) prefix_set) eqn:E.
    + apply any_in_spec in E as (prefix & Hin & Hpre).
      exists prefix. by rewrite <- startswith_spec.
    + exfalso. apply H. split; [done|]. intros (prefix & Hin & Hpre).
      assert (any_in (λ p, startswith module_name p) prefix_set = true)
        by (apply any_in_spec; exists prefix; by rewrite startswith_spec).
      congruence.
  - intros [-> | Hpre] [Hne Hno]; [done | by apply Hno].
Qed.

Lemma module_loop_beyond max_stack_depth prefix_set stack i j :
  within_depth max_stack_depth i = false → i ≤ j →
  module_loop max_stack_depth prefix_set stack j = Normal.
Proof.
  intros Hout Hle. destruct stack as [|f stack]; simpl; [done|].
  destruct (within_depth max_stack_depth j) eqn:E; [|done].
  by rewrite (within_depth_mono _ _ _ Hle E) in Hout.
Qed.

(** Rejected frames are walked through, one unit of depth each. *)
Lemma module_loop_rejected max_stack_depth prefix_set rejected rest i :
  Forall (module_rejected prefix_set) rejected →
  module_loop max_stack_depth prefix_set (rejected ++ rest) i
  = module_loop max_stack_depth prefix_set rest
      (i + Z.of_nat (length rejected)).
Proof.
  intros Hrej. revert i.
  induction Hrej as [|f rejected (m & Hread & Hint) _ IH]; intros i.
  - simpl. by rewrite Z.add_0_r.
  - cbn [app module_loop length].
    destruct (within_depth max_stack_depth i) eqn:E.
    + rewrite Hread. apply module_accepted_false in Hint. rewrite Hint, IH.
      f_equal. lia.
    + symmetry. apply (module_loop_beyond _ _ _ i); [done | lia].
Qed.

Lemma module_loop_accepts max_stack_depth prefix_set f rest i module_name :
  within_depth max_stack_depth i = true →
  f_globals_name f = Value module_name →
  module_accepted prefix_set module_name = true →
  module_loop max_stack_depth prefix_set (f :: rest) i
  = Return (Str module_name).
Proof. intros Hd Hread Hacc. simpl. by rewrite Hd, Hread, Hacc. Qed.

Lemma module_loop_exhausted max_stack_depth prefix_set rest i :
  rest = [] ∨ within_depth max_stack_depth i = false →
  module_loop max_stack_depth prefix_set rest i = Normal.
Proof.
  intros [-> | Hout]; [done|]. by apply (module_loop_beyond _ _ _ i).
Qed.

(** The resolver on a stack split at the end of the skip phase. *)
Lemma resolve_caller_module_skipped ns stack_start max_stack_depth
    excluded_prefixes fallback_to_current skipped rest :
  length skipped = Z.to_nat stack_start →
  resolve_caller_module ns stack_start max_stack_depth excluded_prefixes
    fallback_to_current (skipped ++ rest)
  = match module_loop max_stack_depth (prefix_set_of excluded_prefixes)
            rest 0 with
    | Return v => Returned v
    | Raise e => Raised e
    | Normal => Returned (current_or_missing ns fallback_to_current)
    end.
Proof.
  intros Hlen. unfold resolve_caller_module.
  by rewrite <- Hlen, skip_frames_app.
Qed.

(* ===================================================================== *)
(** * Module resolution *)
(* ===================================================================== *)

(** C2.  After the skipped frames, [resolve_caller_module] returns the
    module identifier of the first inspected frame whose identifier is
    non-empty and starts with none of the configured prefixes: the frames
    before it are the internal ones (empty, or starting with a prefix), and
    being inspected means lying within the depth limit.  The prefix test is
    a plain comparison of initial characters, so ["foo"] excludes both
    ["foobar"] and ["foo.bar"]; and on the chain ["pkg.internal"],
    ["pkg.sub"], ["app.main"] with the prefix set [{"pkg."}] the result is
    ["app.main"]. *)
Theorem resolve_caller_module_first_accepted :
  (∀ ns stack_start max_stack_depth excluded_prefixes fallback_to_current
     skipped rejected f rest module_name,
     length skipped = Z.to_nat stack_start →
     Forall (module_rejected (prefix_set_of excluded_prefixes)) rejected →
     within_depth max_stack_depth (Z.of_nat (length rejected)) = true →
     f_globals_name f = Value module_name →
     module_name ≠ "" →
     (∀ prefix, prefix ∈ prefix_set_of excluded_prefixes →
                ¬ is_prefix_of prefix module_name) →
     resolve_caller_module ns stack_start max_stack_depth excluded_prefixes
       fallback_to_current (skipped ++ rejected ++ f :: rest)
     = Returned (Str module_name))
  ∧ module_accepted {[ "foo" ]} "foobar" = false
  ∧ module_accepted {[ "foo" ]} "foo.bar" = false
  ∧ (∀ ns fallback_to_current p1 p2 p3,
       resolve_caller_module ns 0 None (ExColl {[ "pkg." ]})
         fallback_to_current
         [plain_frame "pkg.internal" p1; plain_frame "pkg.sub" p2;
          plain_frame "app.main" p3]
       = Returned (Str "app.main")).
Proof.
  split; [|repeat split; intros; by vm_compute].
  intros ns stack_start max_stack_depth excluded_prefixes fallback_to_current
    skipped rejected f rest module_name Hlen Hrej Hdepth Hread Hne Hno.
  rewrite resolve_caller_module_skipped by done.
  rewrite module_loop_rejected by done.
  rewrite (module_loop_accepts _ _ _ _ _ module_name); try done.
  apply module_accepted_spec. split; [done|].
  intros (prefix & Hin & Hpre). by apply (Hno prefix).
Qed.

Lemma resolve_caller_module_first_accepted_witness :
  resolve_caller_module
    {| __name__ := "utils.caller_resolver";
       __file__ := "/srv/utils/caller_resolver.py" |}
    1 (Some 3) (ExStr "pkg.") true
    ([plain_frame "utils.caller_resolver" "/srv/utils/caller_resolver.py"]
     ++ [plain_frame "pkg.internal" "/srv/pkg/internal.py";
         plain_frame "" "<string>"]
     ++ plain_frame "app.main" "/srv/app/main.py"
     :: [plain_frame "__main__" "/srv/run.py"])
  = Returned (Str "app.main").
Proof.
  apply (proj1 resolve_caller_module_first_accepted).
  - reflexivity.
  - repeat constructor.
    + exists "pkg.internal". split; [reflexivity|]. right.
      exists "pkg.". split; [unfold prefix_set_of; set_solver|].
      by exists "internal".
    + exists "". split; [reflexivity | by left].
  - reflexivity.
  - reflexivity.
  - discriminate.
  - intros prefix Hin [rest' Hrest].
    unfold prefix_set_of in Hin. apply elem_of_singleton in Hin.
    subst prefix. discriminate.
Defined.

(* ===================================================================== *)
(** * The file loop *)
(* ===================================================================== *)

Section FileResolution.
Context {platform : Platform}.
Variable ns : module_ns.
Variable sys_argv : list string.

Lemma should_exclude_spec pattern_set caller_path :
  should_exclude pattern_set caller_path = true
  ↔ path_internal pattern_set caller_path.
Proof.
  unfold should_exclude, path_internal.
  assert (any_in (λ pattern, str_in pattern caller_path) pattern_set = true
          ↔ ∃ pattern, pattern ∈ pattern_set ∧ occurs_in pattern caller_path)
    as <-.
  { rewrite any_in_spec. by setoid_rewrite str_in_spec. }
  assert (existsb (λ v, str_in v (lower caller_path)) venv_patterns = true
          ↔ ∃ marker, marker ∈ ["venv"; ".venv"; "virtualenv"]
                      ∧ occurs_in marker (lower caller_path)) as <-.
  { rewrite existsb_exists. setoid_rewrite str_in_spec.
    by setoid_rewrite list_elem_of_In. }
  destruct (any_in _ pattern_set), (existsb _ venv_patterns); simpl;
    intuition congruence.
Qed.

Lemma should_exclude_false pattern_set caller_path :
  should_exclude pattern_set caller_path = false
  ↔ ¬ path_internal pattern_set caller_path.
Proof. by rewrite <- should_exclude_spec, not_true_iff_false. Qed.

Lemma filename_loop_beyond max_stack_depth pattern_set return_basename
    stack seen_files i j :
  within_depth max_stack_depth i = false → i ≤ j →
  filename_loop max_stack_depth pattern_set return_basename stack j seen_files
  = Normal.
Proof.
  intros Hout Hle. destruct stack as [|f stack]; simpl; [done|].
  destruct (within_depth max_stack_depth j) eqn:E; [|done].
  by rewrite (within_depth_mono _ _ _ Hle E) in Hout.
Qed.

(** One turn of the loop on a frame whose path was not seen before. *)
Lemma filename_loop_unseen max_stack_depth pattern_set return_basename
    f f_back inspected seen_files caller_path :
  within_depth max_stack_depth inspected = true →
  f_code_co_filename f = Value caller_path →
  caller_path ∉ seen_files →
  filename_loop max_stack_depth pattern_set return_basename (f :: f_back)
    inspected seen_files
  = if should_exclude pattern_set caller_path
    then filename_loop max_stack_depth pattern_set return_basename f_back
           (inspected + 1) ({[ caller_path ]} ∪ seen_files)
    else Return (Str (rendered return_basename caller_path)).
Proof.
  intros Hd Hread Hnew. simpl. rewrite Hd, Hread.
  rewrite bool_decide_eq_true_2 by done.
  by destruct (should_exclude pattern_set caller_path).
Qed.

(** One turn of the loop on a frame whose path is in the seen set. *)
Lemma filename_loop_seen max_stack_depth pattern_set return_basename
    f f_back inspected seen_files caller_path :
  within_depth max_stack_depth inspected = true →
  f_code_co_filename f = Value caller_path →
  caller_path ∈ seen_files →
  filename_loop max_stack_depth pattern_set return_basename (f :: f_back)
    inspected seen_files
  = filename_loop max_stack_depth pattern_set return_basename f_back
      (inspected + 1) seen_files.
Proof.
  intros Hd Hread Hseen. simpl. rewrite Hd, Hread.
  rewrite bool_decide_eq_false_2; [done | by intros ?].
Qed.

(** Frames that are seen or internal are walked through, one unit of depth
    each, their paths joining the seen set. *)
Lemma filename_loop_passed_over max_stack_depth pattern_set return_basename
    rejected rest i seen_files :
  passed_over pattern_set seen_files rejected →
  filename_loop max_stack_depth pattern_set return_basename
    (rejected ++ rest) i seen_files
  = filename_loop max_stack_depth pattern_set return_basename rest
      (i + Z.of_nat (length rejected)) (seen_after seen_files rejected).
Proof.
  revert i seen_files.
  induction rejected as [|f rejected IH]; intros i seen_files Hpass.
  - simpl. by rewrite Z.add_0_r.
  - destruct Hpass as (p & Hread & Hwhy & Hpass).
    destruct (within_depth max_stack_depth i) eqn:E.
    + cbn [app seen_after length]. rewrite Hread.
      destruct (decide (p ∈ seen_files)) as [Hseen | Hnew].
      * rewrite (filename_loop_seen _ _ _ _ _ _ _ p) by done.
        assert ({[ p ]} ∪ seen_files = seen_files) as Heq
          by (by apply subseteq_union_1_L, singleton_subseteq_l).
        rewrite Heq in Hpass |- *. rewrite IH by done. f_equal. lia.
      * rewrite (filename_loop_unseen _ _ _ _ _ _ _ p) by done.
        destruct Hwhy as [? | Hint]; [done|].
        apply should_exclude_spec in Hint. rewrite Hint, IH by done.
        f_equal. lia.
    + cbn [app]. rewrite (filename_loop_beyond _ _ _ _ _ i i) by (done || lia).
      symmetry. apply (filename_loop_beyond _ _ _ _ _ i); [done | simpl; lia].
Qed.

Lemma file_rejected_passed_over pattern_set seen_files rejected :
  Forall (file_rejected pattern_set) rejected →
  passed_over pattern_set seen_files rejected.
Proof.
  intros Hrej. revert seen_files.
  induction Hrej as [|f rejected (p & Hread & Hint) _ IH]; intros seen_files;
    simpl; [done|].
  exists p. repeat split; [done | by right | apply IH].
Qed.

(** Walking through internal frames keeps the seen set internal. *)
Lemma seen_after_internal pattern_set seen_files rejected :
  (∀ p, p ∈ seen_files → path_internal pattern_set p) →
  Forall (file_rejected pattern_set) rejected →
  ∀ p, p ∈ seen_after seen_files rejected → path_internal pattern_set p.
Proof.
  intros Hseen Hrej. revert seen_files Hseen.
  induction Hrej as [|f rejected (q & Hread & Hint) _ IH];
    intros seen_files Hseen p; simpl; [by apply Hseen|].
  rewrite Hread. apply IH. intros p' [->%elem_of_singleton | ?]%elem_of_union;
    [done | by apply Hseen].
Qed.

Lemma filename_loop_exhausted max_stack_depth pattern_set return_basename
    rest i seen_files :
  rest = [] ∨ within_depth max_stack_depth i = false →
  filename_loop max_stack_depth pattern_set return_basename rest i seen_files
  = Normal.
Proof.
  intros [-> | Hout]; [done|]. by apply (filename_loop_beyond _ _ _ _ _ i).
Qed.

(** The resolver on a stack split at the end of the skip phase. *)
Lemma resolve_caller_filename_skipped stack_start max_stack_depth
    excluded_patterns return_basename fallback_to_argv fallback_to_current
    skipped rest :
  length skipped = Z.to_nat stack_start →
  resolve_caller_filename ns sys_argv stack_start max_stack_depth
    excluded_patterns return_basename fallback_to_argv fallback_to_current
    (skipped ++ rest)
  = match filename_loop max_stack_depth (pattern_set_of ns excluded_patterns)
            return_basename rest 0 ∅ with
    | Return v => Returned v
    | Raise _ | Normal =>
        Returned (fallbacks ns sys_argv return_basename fallback_to_argv
                            fallback_to_current)
    end.
Proof.
  intros Hlen. unfold resolve_caller_filename, filename_try.
  by rewrite <- Hlen, skip_frames_app.
Qed.

(** The first frame that is not internal, behind internal ones only and
    within the depth limit, is the one returned. *)
Lemma filename_loop_first_accepted max_stack_depth pattern_set
    return_basename rejected f rest caller_path :
  Forall (file_rejected pattern_set) rejected →
  within_depth max_stack_depth (Z.of_nat (length rejected)) = true →
  f_code_co_filename f = Value caller_path →
  ¬ path_internal pattern_set caller_path →
  filename_loop max_stack_depth pattern_set return_basename
    (rejected ++ f :: rest) 0 ∅
  = Return (Str (rendered return_basename caller_path)).
Proof.
  intros Hrej Hdepth Hread Hext.
  rewrite filename_loop_passed_over by by apply file_rejected_passed_over.
  rewrite (filename_loop_unseen _ _ _ _ _ _ _ caller_path); try done.
  - apply should_exclude_false in Hext. by rewrite Hext.
  - intros Hseen. apply Hext.
    apply (seen_after_internal pattern_set ∅ rejected); set_solver.
Qed.

(* ===================================================================== *)
(** * File resolution *)
(* ===================================================================== *)

(** C1.  In [resolve_caller_filename] a frame reached after the skip phase
    whose path is not in the seen set is rejected as internal exactly when
    (1) some pattern of the configured set occurs somewhere in its path, or
    (2) its case-folded path contains one of ["venv"], [".venv"],
    ["virtualenv"], the second test not depending on the pattern set; and
    the first frame failing both tests is accepted and returned. *)
Theorem resolve_caller_filename_exclusion :
  (∀ pattern_set caller_path,
     should_exclude pattern_set caller_path = true
     ↔ (∃ pattern, pattern ∈ pattern_set ∧ occurs_in pattern caller_path)
       ∨ (∃ marker, marker ∈ ["venv"; ".venv"; "virtualenv"]
                    ∧ occurs_in marker (lower caller_path)))
  ∧ (∀ max_stack_depth pattern_set return_basename f f_back inspected
       seen_files caller_path,
       within_depth max_stack_depth inspected = true →
       f_code_co_filename f = Value caller_path →
       caller_path ∉ seen_files →
       filename_loop max_stack_depth pattern_set return_basename
         (f :: f_back) inspected seen_files
       = if should_exclude pattern_set caller_path
         then filename_loop max_stack_depth pattern_set return_basename
                f_back (inspected + 1) ({[ caller_path ]} ∪ seen_files)
         else Return (Str (rendered return_basename caller_path)))
  ∧ (∀ stack_start max_stack_depth excluded_patterns return_basename
       fallback_to_argv fallback_to_current skipped rejected f rest
       caller_path,
       length skipped = Z.to_nat stack_start →
       Forall (file_rejected (pattern_set_of ns excluded_patterns))
              rejected →
       within_depth max_stack_depth (Z.of_nat (length rejected)) = true →
       f_code_co_filename f = Value caller_path →
       should_exclude (pattern_set_of ns excluded_patterns) caller_path
       = false →
       resolve_caller_filename ns sys_argv stack_start max_stack_depth
         excluded_patterns return_basename fallback_to_argv
         fallback_to_current (skipped ++ rejected ++ f :: rest)
       = Returned (Str (rendered return_basename caller_path))).
Proof.
  split; [exact should_exclude_spec|].
  split; [exact filename_loop_unseen|].
  intros stack_start max_stack_depth excluded_patterns return_basename
    fallback_to_argv fallback_to_current skipped rejected f rest caller_path
    Hlen Hrej Hdepth Hread Hext.
  rewrite resolve_caller_filename_skipped by done.
  rewrite (filename_loop_first_accepted _ _ _ _ _ _ caller_path); try done.
  by apply should_exclude_false.
Qed.

Lemma resolve_caller_filename_no_frame stack_start max_stack_depth
    excluded_patterns return_basename fallback_to_argv fallback_to_current
    stack :
  no_frame_accepted stack_start max_stack_depth
    (pattern_set_of ns excluded_patterns) stack →
  resolve_caller_filename ns sys_argv stack_start max_stack_depth
    excluded_patterns return_basename fallback_to_argv fallback_to_current
    stack
  = Returned (fallbacks ns sys_argv return_basename fallback_to_argv
                        fallback_to_current).
Proof.
  intros [Hshort | (skipped & rejected & rest & -> & Hlen & Hpass & Hend)].
  - unfold resolve_caller_filename, filename_try.
    by rewrite skip_frames_short.
  - rewrite resolve_caller_filename_skipped by done.
    rewrite filename_loop_passed_over by done.
    by rewrite filename_loop_exhausted.
Qed.

(** C4.  Whenever [resolve_caller_filename] accepts no frame (the skip
    count exceeds the depth of the stack, the stack is exhausted, or the
    depth limit is reached) it returns, without raising: the file name of
    [sys.argv[0]] when [fallback_to_argv] is set and [sys.argv] is not
    empty; otherwise the resolver's own file name when [fallback_to_current]
    is set; otherwise [MISSING].  File names are rendered as
    [return_basename] asks. *)
Theorem resolve_caller_filename_fallback_cascade
    stack_start max_stack_depth excluded_patterns return_basename
    fallback_to_argv fallback_to_current stack :
  no_frame_accepted stack_start max_stack_depth
    (pattern_set_of ns excluded_patterns) stack →
  let returned :=
    resolve_caller_filename ns sys_argv stack_start max_stack_depth
      excluded_patterns return_basename fallback_to_argv fallback_to_current
      stack in
  (∀ path argv, fallback_to_argv = true → sys_argv = path :: argv →
     returned = Returned (Str (rendered return_basename path)))
  ∧ (fallback_to_argv = false ∨ sys_argv = [] →
     fallback_to_current = true →
     returned = Returned (Str (rendered return_basename (__file__ ns))))
  ∧ (fallback_to_argv = false ∨ sys_argv = [] →
     fallback_to_current = false →
     returned = Returned MISSING).
Proof.
  intros Hnone returned. subst returned.
  rewrite resolve_caller_filename_no_frame by done.
  unfold fallbacks. repeat split.
  - by intros path argv -> ->.
  - intros [-> | ->] ->; [done | by destruct fallback_to_argv].
  - intros [-> | ->] ->; [done | by destruct fallback_to_argv].
Qed.

(* ===================================================================== *)
(** * Faults while reading a frame *)
(* ===================================================================== *)

(** The [try] statement of the file resolver lets no exception out. *)
Lemma resolve_caller_filename_returns stack_start max_stack_depth
    excluded_patterns return_basename fallback_to_argv fallback_to_current
    stack :
  ∃ v, resolve_caller_filename ns sys_argv stack_start max_stack_depth
         excluded_patterns return_basename fallback_to_argv
         fallback_to_current stack
       = Returned v.
Proof.
  unfold resolve_caller_filename.
  destruct (filename_try _ _ _ _ _ _ _ _ _); by eexists.
Qed.

(** C5.  [resolve_caller_filename] never lets an exception out: a fault
    while reading a frame's path is caught by the [except Exception] of the
    traversal and the call returns what the fallbacks give, so its caller
    sees a string or [MISSING] only.  [resolve_caller_module] has no such
    handler: a fault while reading the module identifier of a frame the
    loop reaches is raised to its caller. *)
Theorem fault_handling_asymmetry :
  (∀ stack_start max_stack_depth excluded_patterns return_basename
     fallback_to_argv fallback_to_current stack,
     ∃ v, resolve_caller_filename ns sys_argv stack_start max_stack_depth
            excluded_patterns return_basename fallback_to_argv
            fallback_to_current stack
          = Returned v)
  ∧ (∀ stack_start max_stack_depth excluded_patterns return_basename
       fallback_to_argv fallback_to_current
       (skipped rejected : list Frame) f rest e,
       length skipped = Z.to_nat stack_start →
       passed_over (pattern_set_of ns excluded_patterns) ∅ rejected →
       within_depth max_stack_depth (Z.of_nat (length rejected)) = true →
       f_code_co_filename f = Fault e →
       resolve_caller_filename ns sys_argv stack_start max_stack_depth
         excluded_patterns return_basename fallback_to_argv
         fallback_to_current (skipped ++ rejected ++ f :: rest)%list
       = Returned (fallbacks ns sys_argv return_basename fallback_to_argv
                             fallback_to_current))
  ∧ (∀ stack_start max_stack_depth excluded_prefixes fallback_to_current
       (skipped rejected : list Frame) f rest e,
       length skipped = Z.to_nat stack_start →
       Forall (module_rejected (prefix_set_of excluded_prefixes)) rejected →
       within_depth max_stack_depth (Z.of_nat (length rejected)) = true →
       f_globals_name f = Fault e →
       resolve_caller_module ns stack_start max_stack_depth
         excluded_prefixes fallback_to_current
         (skipped ++ rejected ++ f :: rest)%list
       = Raised e).
Proof.
  repeat split.
  - intros. apply resolve_caller_filename_returns.
  - intros * Hlen Hpass Hdepth Hread.
    rewrite resolve_caller_filename_skipped by done.
    rewrite filename_loop_passed_over, Z.add_0_l by done.
    cbn [filename_loop]. by rewrite Hdepth, Hread.
  - intros * Hlen Hrej Hdepth Hread.
    rewrite resolve_caller_module_skipped by done.
    rewrite module_loop_rejected, Z.add_0_l by done.
    cbn [module_loop]. by rewrite Hdepth, Hread.
Qed.

(* ===================================================================== *)
(** * The depth limit *)
(* ===================================================================== *)

Lemma module_loop_take d prefix_set rest i :
  module_loop (Some d) prefix_set rest i
  = module_loop (Some d) prefix_set (take (Z.to_nat (d - i)) rest) i.
Proof.
  revert i. induction rest as [|f rest IH]; intros i.
  - by rewrite take_nil.
  - destruct (Z.ltb_spec i d) as [Hlt | Hge].
    + replace (Z.to_nat (d - i)) with (S (Z.to_nat (d - (i + 1)))) by lia.
      simpl. destruct (i <? d); [|done].
      destruct (f_globals_name f); [|done]. by rewrite <- IH.
    + replace (Z.to_nat (d - i)) with O by lia. simpl.
      by apply Z.ltb_ge in Hge as ->.
Qed.

Lemma filename_loop_take d pattern_set return_basename rest i seen_files :
  filename_loop (Some d) pattern_set return_basename rest i seen_files
  = filename_loop (Some d) pattern_set return_basename
      (take (Z.to_nat (d - i)) rest) i seen_files.
Proof.
  revert i seen_files. induction rest as [|f rest IH]; intros i seen_files.
  - by rewrite take_nil.
  - destruct (Z.ltb_spec i d) as [Hlt | Hge].
    + replace (Z.to_nat (d - i)) with (S (Z.to_nat (d - (i + 1)))) by lia.
      simpl. destruct (i <? d); [|done].
      destruct (f_code_co_filename f); [|done]. by rewrite <- !IH.
    + replace (Z.to_nat (d - i)) with O by lia. simpl.
      by apply Z.ltb_ge in Hge as ->.
Qed.

(** C6.  In both resolvers the [stack_start] frames are consumed before any
    matching, whatever they are, and do not count toward
    [max_stack_depth]: resolving behind them is resolving their rest with
    nothing to skip and the same limit.  With [max_stack_depth = d] only
    the first [d] frames after the skip are looked at, and a frame at
    position [d + 1] or later is never found: when the frames before it are
    passed over, the resolver falls back whatever that frame is. *)
Theorem depth_limit_after_skip :
  (∀ stack_start max_stack_depth excluded_prefixes fallback_to_current
     (skipped rest : list Frame),
     length skipped = Z.to_nat stack_start →
     resolve_caller_module ns stack_start max_stack_depth excluded_prefixes
       fallback_to_current (skipped ++ rest)%list
     = resolve_caller_module ns 0 max_stack_depth excluded_prefixes
         fallback_to_current rest)
  ∧ (∀ stack_start max_stack_depth excluded_patterns return_basename
       fallback_to_argv fallback_to_current (skipped rest : list Frame),
       length skipped = Z.to_nat stack_start →
       resolve_caller_filename ns sys_argv stack_start max_stack_depth
         excluded_patterns return_basename fallback_to_argv
         fallback_to_current (skipped ++ rest)%list
       = resolve_caller_filename ns sys_argv 0 max_stack_depth
           excluded_patterns return_basename fallback_to_argv
           fallback_to_current rest)
  ∧ (∀ stack_start d excluded_prefixes fallback_to_current
       (skipped rest : list Frame),
       length skipped = Z.to_nat stack_start →
       resolve_caller_module ns stack_start (Some d) excluded_prefixes
         fallback_to_current (skipped ++ rest)%list
       = resolve_caller_module ns stack_start (Some d) excluded_prefixes
           fallback_to_current (skipped ++ take (Z.to_nat d) rest)%list)
  ∧ (∀ stack_start d excluded_patterns return_basename fallback_to_argv
       fallback_to_current (skipped rest : list Frame),
       length skipped = Z.to_nat stack_start →
       resolve_caller_filename ns sys_argv stack_start (Some d)
         excluded_patterns return_basename fallback_to_argv
         fallback_to_current (skipped ++ rest)%list
       = resolve_caller_filename ns sys_argv stack_start (Some d)
           excluded_patterns return_basename fallback_to_argv
           fallback_to_current (skipped ++ take (Z.to_nat d) rest)%list)
  ∧ (∀ stack_start d excluded_prefixes fallback_to_current
       (skipped rejected : list Frame) f rest,
       length skipped = Z.to_nat stack_start →
       Forall (module_rejected (prefix_set_of excluded_prefixes)) rejected →
       d ≤ Z.of_nat (length rejected) →
       resolve_caller_module ns stack_start (Some d) excluded_prefixes
         fallback_to_current (skipped ++ rejected ++ f :: rest)%list
       = Returned (current_or_missing ns fallback_to_current))
  ∧ (∀ stack_start d excluded_patterns return_basename fallback_to_argv
       fallback_to_current (skipped rejected : list Frame) f rest,
       length skipped = Z.to_nat stack_start →
       passed_over (pattern_set_of ns excluded_patterns) ∅ rejected →
       d ≤ Z.of_nat (length rejected) →
       resolve_caller_filename ns sys_argv stack_start (Some d)
         excluded_patterns return_basename fallback_to_argv
         fallback_to_current (skipped ++ rejected ++ f :: rest)%list
       = Returned (fallbacks ns sys_argv return_basename fallback_to_argv
                             fallback_to_current)).
Proof.
  repeat split.
  - intros * Hlen. rewrite resolve_caller_module_skipped by done.
    by rewrite <- (resolve_caller_module_skipped _ 0 _ _ _ []).
  - intros * Hlen. rewrite resolve_caller_filename_skipped by done.
    by rewrite <- (resolve_caller_filename_skipped 0 _ _ _ _ _ []).
  - intros * Hlen. rewrite !resolve_caller_module_skipped by done.
    rewrite module_loop_take. by rewrite Z.sub_0_r.
  - intros * Hlen. rewrite !resolve_caller_filename_skipped by done.
    rewrite filename_loop_take. by rewrite Z.sub_0_r.
  - intros * Hlen Hrej Hd. rewrite resolve_caller_module_skipped by done.
    rewrite module_loop_rejected by done.
    rewrite module_loop_exhausted; [done|]. right. simpl.
    apply Z.ltb_ge. lia.
  - intros * Hlen Hpass Hd. rewrite resolve_caller_filename_skipped by done.
    rewrite filename_loop_passed_over by done.
    rewrite filename_loop_exhausted; [done|]. right. simpl.
    apply Z.ltb_ge. lia.
Qed.

(* ===================================================================== *)
(** * The seen set and the depth budget *)
(* ===================================================================== *)

(** A run of frames repeating a path that is already in the seen set. *)
Lemma repeats_passed_over pattern_set seen_files caller_path
    (repeats : list Frame) :
  caller_path ∈ seen_files →
  Forall (λ h, f_code_co_filename h = Value caller_path) repeats →
  passed_over pattern_set seen_files repeats.
Proof.
  intros Hseen Hrep. induction Hrep as [|h repeats Hread _ IH]; simpl; [done|].
  exists caller_path. repeat split; [done | by left |].
  by rewrite subseteq_union_1_L by by apply singleton_subseteq_l.
Qed.

(** C9.  In [resolve_caller_filename] a frame after the skip whose path is
    already in the seen set is passed without evaluating the exclusion
    tests, and the counter of inspected frames still goes up by one for it.
    So repeated paths use up [max_stack_depth]: when an internal path is
    followed by repeats of itself and then by a frame that would be
    accepted, a limit [d] that reaches that frame without the repeats
    ([2 ≤ d]) but not with them ([d ≤ 1 + number of repeats]) makes the
    resolver fall back with the repeats and find the frame without them. *)
Theorem seen_frames_consume_depth :
  (∀ max_stack_depth pattern_set return_basename f f_back inspected
     seen_files caller_path,
     within_depth max_stack_depth inspected = true →
     f_code_co_filename f = Value caller_path →
     caller_path ∈ seen_files →
     filename_loop max_stack_depth pattern_set return_basename
       (f :: f_back) inspected seen_files
     = filename_loop max_stack_depth pattern_set return_basename f_back
         (inspected + 1) seen_files)
  ∧ (∀ stack_start d excluded_patterns return_basename fallback_to_argv
       fallback_to_current (skipped repeats : list Frame) f g rest
       internal_path accepted_path,
       length skipped = Z.to_nat stack_start →
       f_code_co_filename f = Value internal_path →
       path_internal (pattern_set_of ns excluded_patterns) internal_path →
       Forall (λ h, f_code_co_filename h = Value internal_path) repeats →
       f_code_co_filename g = Value accepted_path →
       ¬ path_internal (pattern_set_of ns excluded_patterns) accepted_path →
       2 ≤ d ≤ 1 + Z.of_nat (length repeats) →
       resolve_caller_filename ns sys_argv stack_start (Some d)
         excluded_patterns return_basename fallback_to_argv
         fallback_to_current (skipped ++ f :: repeats ++ g :: rest)%list
       = Returned (fallbacks ns sys_argv return_basename fallback_to_argv
                             fallback_to_current)
       ∧ resolve_caller_filename ns sys_argv stack_start (Some d)
           excluded_patterns return_basename fallback_to_argv
           fallback_to_current (skipped ++ f :: g :: rest)%list
         = Returned (Str (rendered return_basename accepted_path))).
Proof.
  split; [exact filename_loop_seen|].
  intros * Hlen Hf Hint Hrep Hg Hext [Hd2 Hd].
  assert (file_rejected (pattern_set_of ns excluded_patterns) f) as Hrej
    by by exists internal_path.
  split.
  - apply resolve_caller_filename_no_frame. right.
    exists skipped, (f :: repeats), (g :: rest). repeat split; try done.
    + exists internal_path. repeat split; [done | by right |].
      apply (repeats_passed_over _ _ internal_path); [set_solver | done].
    + right. simpl within_depth. apply Z.ltb_ge. simpl length. lia.
  - rewrite resolve_caller_filename_skipped by done.
    change (f :: g :: rest)%list with ([f] ++ g :: rest)%list.
    rewrite (filename_loop_first_accepted _ _ _ _ _ _ accepted_path);
      try done; [by constructor|].
    simpl. apply Z.ltb_lt. lia.
Qed.

(* ===================================================================== *)
(** * When MISSING can come out *)
(* ===================================================================== *)

Lemma skip_frames_suffix n (stack frame : list Frame) f :
  skip_frames n stack = Some frame → f ∈ frame → f ∈ stack.
Proof.
  revert stack. induction n as [|n IH]; intros stack Hskip Hin; simpl in *.
  - by injection Hskip as ->.
  - destruct stack as [|g stack]; [done|]. right. by apply IH.
Qed.

Lemma module_loop_cases max_stack_depth prefix_set stack i :
  let run := module_loop max_stack_depth prefix_set stack i in
  run = Normal
  ∨ (∃ module_name f, f ∈ stack ∧ f_globals_name f = Value module_name
                      ∧ run = Return (Str module_name))
  ∨ (∃ e f, f ∈ stack ∧ f_globals_name f = Fault e ∧ run = Raise e).
Proof.
  revert i. induction stack as [|f stack IH]; intros i; simpl; [by left|].
  destruct (within_depth max_stack_depth i); [|by left].
  destruct (f_globals_name f) as [m | e] eqn:Hread.
  - destruct (module_accepted prefix_set m).
    { right; left. exists m, f. repeat split; [by left | done]. }
    destruct (IH (i + 1))
      as [? | [(m' & g & Hin & Hg & ?) | (e & g & Hin & Hg & ?)]];
      [by left | right; left | right; right].
    + exists m', g. repeat split; [by right | done | done].
    + exists e, g. repeat split; [by right | done | done].
  - right; right. exists e, f. repeat split; [by left | done].
Qed.

Lemma filename_loop_cases max_stack_depth pattern_set return_basename
    stack i seen_files :
  let run := filename_loop max_stack_depth pattern_set return_basename
               stack i seen_files in
  run = Normal ∨ (∃ s, run = Return (Str s)) ∨ (∃ e, run = Raise e).
Proof.
  revert i seen_files.
  induction stack as [|f stack IH]; intros i seen_files; simpl; [by left|].
  destruct (within_depth max_stack_depth i); [|by left].
  destruct (f_code_co_filename f) as [p | e]; [|right; right; by exists e].
  destruct (bool_decide (p ∉ seen_files)); [|apply IH].
  destruct (should_exclude pattern_set p); simpl; [apply IH|].
  right; left. by eexists.
Qed.

Lemma fallbacks_current return_basename fallback_to_argv :
  ∃ s, fallbacks ns sys_argv return_basename fallback_to_argv true = Str s.
Proof.
  unfold fallbacks. destruct (if fallback_to_argv then sys_argv else []);
    by eexists.
Qed.

Lemma fallbacks_missing return_basename fallback_to_argv fallback_to_current :
  fallbacks ns sys_argv return_basename fallback_to_argv fallback_to_current
  = MISSING
  ↔ fallback_to_current = false ∧ (fallback_to_argv = false ∨ sys_argv = []).
Proof.
  unfold fallbacks.
  destruct fallback_to_argv, sys_argv, fallback_to_current; simpl;
    intuition congruence.
Qed.

(** The file resolver returns what its loop returned or what the fallbacks
    give. *)
Lemma resolve_caller_filename_cases stack_start max_stack_depth
    excluded_patterns return_basename fallback_to_argv fallback_to_current
    stack :
  let returned :=
    resolve_caller_filename ns sys_argv stack_start max_stack_depth
      excluded_patterns return_basename fallback_to_argv fallback_to_current
      stack in
  (∃ s, returned = Returned (Str s))
  ∨ returned = Returned (fallbacks ns sys_argv return_basename
                                   fallback_to_argv fallback_to_current).
Proof.
  unfold resolve_caller_filename, filename_try.
  destruct (skip_frames _ stack) as [frame|]; [|by right].
  destruct (filename_loop_cases max_stack_depth
              (pattern_set_of ns excluded_patterns) return_basename frame 0 ∅)
    as [-> | [[s ->] | [e ->]]]; [by right | left; by exists s | by right].
Qed.

(** The module resolver returns what its loop returned or its own name or
    [MISSING], or raises the fault of a frame. *)
Lemma resolve_caller_module_cases stack_start max_stack_depth
    excluded_prefixes fallback_to_current stack :
  let returned :=
    resolve_caller_module ns stack_start max_stack_depth excluded_prefixes
      fallback_to_current stack in
  (∃ s, returned = Returned (Str s))
  ∨ returned = Returned (current_or_missing ns fallback_to_current)
  ∨ (∃ e f, f ∈ stack ∧ f_globals_name f = Fault e ∧ returned = Raised e).
Proof.
  unfold resolve_caller_module.
  destruct (skip_frames _ stack) as [frame|] eqn:Hskip; [|by right; left].
  destruct (module_loop_cases max_stack_depth
              (prefix_set_of excluded_prefixes) frame 0)
    as [-> | [(s & g & _ & _ & ->) | (e & f & Hin & Hread & ->)]];
    [by right; left | left; by exists s |].
  right; right. exists e, f. repeat split; [|done].
  by apply (skip_frames_suffix _ _ _ _ Hskip).
Qed.

(** C10, as the code has it.  With [fallback_to_current = true],
    [resolve_caller_filename] returns a string on every input;
    [resolve_caller_module] returns a string unless the read of a frame's
    module identifier faults, and then that fault is raised to the caller;
    neither returns [MISSING].
    [MISSING] comes out only when [fallback_to_current] is false and, for
    the file resolver, [fallback_to_argv] is false or [sys.argv] is empty;
    and under these settings it does come out of an empty stack. *)
Theorem fallback_to_current_never_missing :
  (∀ stack_start max_stack_depth excluded_patterns return_basename
     fallback_to_argv stack,
     ∃ s, resolve_caller_filename ns sys_argv stack_start max_stack_depth
            excluded_patterns return_basename fallback_to_argv true stack
          = Returned (Str s))
  ∧ (∀ stack_start max_stack_depth excluded_prefixes stack,
       let returned :=
         resolve_caller_module ns stack_start max_stack_depth
           excluded_prefixes true stack in
       (∃ s, returned = Returned (Str s))
       ∨ (∃ e f, f ∈ stack ∧ f_globals_name f = Fault e
                 ∧ returned = Raised e))
  ∧ (∀ stack_start max_stack_depth excluded_prefixes fallback_to_current
       stack,
       resolve_caller_module ns stack_start max_stack_depth
         excluded_prefixes fallback_to_current stack
       = Returned MISSING →
       fallback_to_current = false)
  ∧ (∀ stack_start max_stack_depth excluded_patterns return_basename
       fallback_to_argv fallback_to_current stack,
       resolve_caller_filename ns sys_argv stack_start max_stack_depth
         excluded_patterns return_basename fallback_to_argv
         fallback_to_current stack
       = Returned MISSING →
       fallback_to_current = false
       ∧ (fallback_to_argv = false ∨ sys_argv = []))
  ∧ (∀ stack_start max_stack_depth excluded_prefixes,
       resolve_caller_module ns stack_start max_stack_depth
         excluded_prefixes false []
       = Returned MISSING)
  ∧ (∀ stack_start max_stack_depth excluded_patterns return_basename
       fallback_to_argv,
       fallback_to_argv = false ∨ sys_argv = [] →
       resolve_caller_filename ns sys_argv stack_start max_stack_depth
         excluded_patterns return_basename fallback_to_argv false []
       = Returned MISSING).
Proof.
  repeat split.
  - intros. destruct (resolve_caller_filename_cases stack_start
      max_stack_depth excluded_patterns return_basename fallback_to_argv
      true stack) as [? | ->]; [done|].
    destruct (fallbacks_current return_basename fallback_to_argv) as [s ->].
    by exists s.
  - intros. subst returned. destruct (resolve_caller_module_cases stack_start
      max_stack_depth excluded_prefixes true stack) as [? | [-> | ?]];
      [by left | left; by eexists | by right].
  - intros * Hmiss. destruct (resolve_caller_module_cases stack_start
      max_stack_depth excluded_prefixes fallback_to_current stack)
      as [[s Hs] | [Hfb | (e & f & _ & _ & He)]]; try congruence.
    rewrite Hfb in Hmiss. by destruct fallback_to_current.
  - destruct (resolve_caller_filename_cases stack_start max_stack_depth
      excluded_patterns return_basename fallback_to_argv fallback_to_current
      stack) as [[s Hs] | Hfb]; [congruence|].
    rewrite Hfb in H. injection H as H.
    by apply fallbacks_missing in H as [? ?].
  - destruct (resolve_caller_filename_cases stack_start max_stack_depth
      excluded_patterns return_basename fallback_to_argv fallback_to_current
      stack) as [[s Hs] | Hfb]; [congruence|].
    rewrite Hfb in H. injection H as H.
    by apply fallbacks_missing in H as [? ?].
  - intros. unfold resolve_caller_module.
    by destruct (Z.to_nat stack_start).
  - intros * Hoff. unfold resolve_caller_filename, filename_try.
    assert (fallbacks ns sys_argv return_basename fallback_to_argv false
            = MISSING) as -> by by apply fallbacks_missing.
    by destruct (Z.to_nat stack_start).
Qed.

(* ===================================================================== *)
(** * An empty exclusion set *)
(* ===================================================================== *)

(** C3, as the code has it.  With an empty exclusion set no frame is
    excluded by pattern matching.  The module resolver then returns the
    identifier of the first frame after the skip, within the depth limit,
    whose identifier is not empty.  The file resolver still applies the
    environment-directory test: it returns the path of the first frame
    after the skip, within the depth limit, whose case-folded path contains
    none of ["venv"], [".venv"], ["virtualenv"], the frames before it
    being those whose case-folded path contains one. *)
Theorem empty_exclusion_set_first_valid :
  (∀ test, any_in test ∅ = false)
  ∧ (∀ stack_start max_stack_depth excluded_prefixes fallback_to_current
       (skipped blanks : list Frame) f rest module_name,
       prefix_set_of excluded_prefixes = ∅ →
       length skipped = Z.to_nat stack_start →
       Forall (λ g, f_globals_name g = Value "") blanks →
       within_depth max_stack_depth (Z.of_nat (length blanks)) = true →
       f_globals_name f = Value module_name →
       module_name ≠ "" →
       resolve_caller_module ns stack_start max_stack_depth
         excluded_prefixes fallback_to_current
         (skipped ++ blanks ++ f :: rest)%list
       = Returned (Str module_name))
  ∧ (∀ stack_start max_stack_depth return_basename fallback_to_argv
       fallback_to_current (skipped envs : list Frame) f rest caller_path,
       length skipped = Z.to_nat stack_start →
       Forall (λ g, ∃ p, f_code_co_filename g = Value p
                         ∧ ∃ marker, marker ∈ ["venv"; ".venv"; "virtualenv"]
                                     ∧ occurs_in marker (lower p)) envs →
       within_depth max_stack_depth (Z.of_nat (length envs)) = true →
       f_code_co_filename f = Value caller_path →
       (∀ marker, marker ∈ ["venv"; ".venv"; "virtualenv"] →
                  ¬ occurs_in marker (lower caller_path)) →
       resolve_caller_filename ns sys_argv stack_start max_stack_depth
         (ExColl ∅) return_basename fallback_to_argv fallback_to_current
         (skipped ++ envs ++ f :: rest)%list
       = Returned (Str (rendered return_basename caller_path))).
Proof.
  split; [exact any_in_empty|]. split.
  - intros * Hempty Hlen Hblank Hdepth Hread Hne.
    rewrite resolve_caller_module_skipped by done.
    rewrite module_loop_rejected.
    + rewrite (module_loop_accepts _ _ _ _ _ module_name); try done.
      apply module_accepted_spec. split; [done|]. rewrite Hempty.
      intros (prefix & Hin & _). by apply not_elem_of_empty in Hin.
    + eapply Forall_impl; [exact Hblank|]. intros g Hg.
      exists "". split; [done | by left].
  - intros * Hlen Henv Hdepth Hread Hclean.
    rewrite resolve_caller_filename_skipped by done.
    rewrite (filename_loop_first_accepted _ _ _ _ _ _ caller_path); try done.
    + eapply Forall_impl; [exact Henv|]. intros g (p & Hg & Hmark).
      exists p. split; [done | by right].
    + intros [(pattern & Hin & _) | (marker & Hin & Hocc)].
      * by apply not_elem_of_empty in Hin.
      * by apply (Hclean marker).
Qed.

End FileResolution.

(* ===================================================================== *)
(** * The record filter *)
(* ===================================================================== *)

Section RecordFilter.
Context {platform : Platform}.
Variable ns : module_ns.
Variable sys_argv : list string.

Lemma setattr_writable (record : gmap string object) name value :
  writable name → setattr record name value = Returned (<[ name := value ]> record).
Proof.
  intros (Hdict & Hclass & Hweak). unfold setattr.
  by rewrite (proj2 (String.eqb_neq _ _) Hdict),
             (proj2 (String.eqb_neq _ _) Hclass),
             (proj2 (String.eqb_neq _ _) Hweak).
Qed.

Lemma setattr_reserved (record : gmap string object) name value :
  ¬ writable name → ∃ e, setattr record name value = Raised e.
Proof.
  intros Hreserved. unfold setattr.
  destruct (String.eqb_spec name "__dict__"); [by eexists|].
  destruct (String.eqb_spec name "__class__"); [by eexists|].
  destruct (String.eqb_spec name "__weakref__"); [by eexists|].
  by destruct Hreserved.
Qed.

Lemma setattr_returned (record record' : gmap string object) name value :
  setattr record name value = Returned record' →
  writable name ∧ record' = <[ name := value ]> record.
Proof.
  unfold setattr, writable.
  destruct (String.eqb_spec name "__dict__"); [done|].
  destruct (String.eqb_spec name "__class__"); [done|].
  destruct (String.eqb_spec name "__weakref__"); [done|].
  by intros [= <-].
Qed.

(** C7, as the code has it.  For a filter whose [attribute_name] is a name
    [setattr] can store on a record, and for every log record,
    [CallerInfoFilter.filter] returns [True].  It resolves the caller's
    file with the skip count [8 + stack_offset], its own pattern set and
    its [fallback_to_argv]; it stores what the resolver returned (the
    string, or [MISSING] as it is) under [attribute_name]; every other
    attribute of the record is as before.  Under one of the names
    [__dict__], [__class__] and [__weakref__] the [setattr] raises and so
    does [filter]. *)
Theorem filter_always_allows self (record : gmap string object) frame :
  (writable (CallerInfoFilter.attribute_name self) →
   ∃ caller record',
     resolve_caller_filename ns sys_argv
       (8 + CallerInfoFilter.stack_offset self) None
       (ExColl (CallerInfoFilter.exclude_patterns self)) true
       (CallerInfoFilter.fallback_to_argv self) true
       (CallerInfoFilter.resolver_frame ns :: frame)
     = Returned caller
     ∧ CallerInfoFilter.filter ns sys_argv self record frame
       = Returned (record', true)
     ∧ record' !! CallerInfoFilter.attribute_name self
       = Some (match caller with Str s => ObjStr s | MISSING => ObjMissing end)
     ∧ ∀ name, name ≠ CallerInfoFilter.attribute_name self →
               record' !! name = record !! name)
  ∧ (¬ writable (CallerInfoFilter.attribute_name self) →
     ∃ e, CallerInfoFilter.filter ns sys_argv self record frame = Raised e).
Proof.
  destruct (resolve_caller_filename_returns ns sys_argv
              (8 + CallerInfoFilter.stack_offset self) None
              (ExColl (CallerInfoFilter.exclude_patterns self)) true
              (CallerInfoFilter.fallback_to_argv self) true
              (CallerInfoFilter.resolver_frame ns :: frame)) as [caller Hcall].
  unfold CallerInfoFilter.filter. rewrite Hcall. split.
  - intros Hname.
    exists caller,
      (<[ CallerInfoFilter.attribute_name self := object_of caller ]> record).
    rewrite setattr_writable by done. split; [done|]. split; [done|]. split.
    + by rewrite lookup_insert_eq.
    + intros name Hne. by rewrite lookup_insert_ne.
  - intros Hname.
    destruct (setattr_reserved record _ (object_of caller) Hname) as [e ->].
    by exists e.
Qed.

End RecordFilter.

(* ===================================================================== *)
(** * The tuple-based resolver against the set-based one *)
(* ===================================================================== *)





(* ===================================================================== *)
(** * The theorems at work on the sample installation *)
(* ===================================================================== *)

Section Sample.
#[local] Existing Instance posix.

Lemma resolve_caller_filename_exclusion_witness :
  filename_loop None (default_patterns sample_ns) true
    [frame_app; frame_run] 0 ∅
  = (if should_exclude (default_patterns sample_ns) "/srv/app/main.py"
     then filename_loop None (default_patterns sample_ns) true [frame_run]
            (0 + 1) ({[ "/srv/app/main.py" ]} ∪ ∅)
     else Return (Str (rendered true "/srv/app/main.py")))
  ∧ resolve_caller_filename sample_ns sample_argv 1 (Some 5) ExNone true
      true true
      ([frame_resolver] ++ [frame_logging; frame_venv]
       ++ frame_app :: [frame_run])
    = Returned (Str (rendered true "/srv/app/main.py")).
Proof.
  destruct (resolve_caller_filename_exclusion sample_ns sample_argv)
    as (Hiff & Hstep & Hfirst).
  split.
  - apply Hstep; [reflexivity | reflexivity | apply not_elem_of_empty].
  - apply Hfirst; try reflexivity.
    repeat constructor.
    + exists "/usr/lib/python3.12/logging/__init__.py".
      split; [reflexivity|]. apply should_exclude_spec. by vm_compute.
    + exists "/home/u/.VENV/lib/requests/api.py".
      split; [reflexivity|]. apply should_exclude_spec. by vm_compute.
Defined.

Lemma empty_exclusion_set_first_valid_witness :
  resolve_caller_module sample_ns 1 (Some 2) (ExColl ∅) true
    ([frame_resolver] ++ [plain_frame "" "<string>"]
     ++ frame_logging :: [frame_app])
  = Returned (Str "logging")
  ∧ resolve_caller_filename sample_ns sample_argv 1 (Some 2) (ExColl ∅)
      false true true
      ([frame_resolver] ++ [frame_venv] ++ frame_logging :: [frame_app])
    = Returned (Str (rendered false
                       "/usr/lib/python3.12/logging/__init__.py")).
Proof.
  destruct (empty_exclusion_set_first_valid sample_ns sample_argv)
    as (_ & Hmodule & Hfile).
  split.
  - apply Hmodule; try reflexivity; [by repeat constructor | discriminate].
  - apply Hfile; try reflexivity.
    + repeat constructor. exists "/home/u/.VENV/lib/requests/api.py".
      split; [reflexivity|]. exists "venv". split; [by left|].
      by exists "/home/u/.", "/lib/requests/api.py".
    + intros marker Hin Hocc. apply str_in_spec in Hocc.
      repeat (apply elem_of_cons in Hin as [-> | Hin]; [by vm_compute in Hocc|]).
      by apply not_elem_of_nil in Hin.
Defined.

(** C3 as the specification words it for the file resolver: an empty
    pattern set would make the first frame after the skip that has a path
    the one returned.  The first frame below lies in a virtual environment
    and is passed over although the pattern set is empty. *)
Lemma empty_pattern_set_still_rejects_venv :
  f_code_co_filename frame_venv = Value "/home/u/.VENV/lib/requests/api.py"
  ∧ resolve_caller_filename sample_ns sample_argv 0 None (ExColl ∅) false
      true true [frame_venv; frame_app]
    = Returned (Str "/srv/app/main.py")
  ∧ ¬ (∀ stack_start max_stack_depth return_basename fallback_to_argv
         fallback_to_current (skipped : list Frame) f rest caller_path,
         length skipped = Z.to_nat stack_start →
         within_depth max_stack_depth 0 = true →
         f_code_co_filename f = Value caller_path →
         resolve_caller_filename sample_ns sample_argv stack_start
           max_stack_depth (ExColl ∅) return_basename fallback_to_argv
           fallback_to_current (skipped ++ f :: rest)%list
         = Returned (Str (rendered return_basename caller_path))).
Proof.
  split; [reflexivity|]. split; [by vm_compute|].
  intros Hclaim.
  specialize (Hclaim 0 None false true true [] frame_venv [frame_app]
                "/home/u/.VENV/lib/requests/api.py"
                eq_refl eq_refl eq_refl).
  by vm_compute in Hclaim.
Qed.

Lemma resolve_caller_filename_fallback_cascade_witness :
  resolve_caller_filename sample_ns sample_argv 9 None ExNone true true true
    [frame_resolver; frame_app; frame_run]
  = Returned (Str (rendered true "/srv/run.py"))
  ∧ resolve_caller_filename sample_ns sample_argv 1 (Some 1) ExNone true
      false true [frame_resolver; frame_logging; frame_app]
    = Returned (Str (rendered true "/srv/utils/caller_resolver.py"))
  ∧ resolve_caller_filename sample_ns sample_argv 1 None ExNone true
      false false [frame_resolver; frame_logging; frame_venv]
    = Returned MISSING.
Proof.
  split; [|split].
  - apply (proj1 (resolve_caller_filename_fallback_cascade sample_ns
                    sample_argv 9 None ExNone true true true
                    [frame_resolver; frame_app; frame_run]
                    ltac:(left; simpl; lia))
             "/srv/run.py" ["--verbose"] eq_refl eq_refl).
  - refine (proj1 (proj2 (resolve_caller_filename_fallback_cascade sample_ns
                    sample_argv 1 (Some 1) ExNone true false true
                    [frame_resolver; frame_logging; frame_app] _))
              (or_introl eq_refl) eq_refl).
    right. exists [frame_resolver], [frame_logging], [frame_app].
    repeat split; [|by right].
    exists "/usr/lib/python3.12/logging/__init__.py".
    repeat split. right. apply should_exclude_spec. by vm_compute.
  - refine (proj2 (proj2 (resolve_caller_filename_fallback_cascade sample_ns
                    sample_argv 1 None ExNone true false false
                    [frame_resolver; frame_logging; frame_venv] _))
              (or_introl eq_refl) eq_refl).
    right. exists [frame_resolver], [frame_logging; frame_venv], [].
    repeat split; [|by left].
    exists "/usr/lib/python3.12/logging/__init__.py".
    repeat split; [right; apply should_exclude_spec; by vm_compute|].
    exists "/home/u/.VENV/lib/requests/api.py".
    repeat split. right. apply should_exclude_spec. by vm_compute.
Defined.

Lemma fault_handling_asymmetry_witness :
  resolve_caller_filename sample_ns sample_argv 1 None ExNone true true true
    ([frame_resolver] ++ [frame_logging] ++ frame_faulty :: [frame_app])
  = Returned (fallbacks sample_ns sample_argv true true true)
  ∧ resolve_caller_module sample_ns 1 None (ExStr "logging") true
      ([frame_resolver] ++ [frame_logging] ++ frame_faulty :: [frame_app])
    = Raised (Exception "RuntimeError").
Proof.
  destruct (fault_handling_asymmetry sample_ns sample_argv)
    as (_ & Hfile & Hmodule).
  split.
  - apply (Hfile 1 None ExNone true true true [frame_resolver]
             [frame_logging] frame_faulty [frame_app]
             (Exception "RuntimeError")); try reflexivity.
    exists "/usr/lib/python3.12/logging/__init__.py".
    split; [reflexivity|]. split; [|exact I].
    right. apply should_exclude_spec. by vm_compute.
  - apply (Hmodule 1 None (ExStr "logging") true [frame_resolver]
             [frame_logging] frame_faulty [frame_app]
             (Exception "RuntimeError")); try reflexivity.
    repeat constructor. exists "logging". split; [reflexivity|].
    apply module_accepted_false. by vm_compute.
Defined.

Lemma depth_limit_after_skip_witness :
  resolve_caller_module sample_ns 2 (Some 1) (ExStr "logging") true
    ([frame_resolver; frame_logging] ++ [frame_app])
  = resolve_caller_module sample_ns 0 (Some 1) (ExStr "logging") true
      [frame_app]
  ∧ resolve_caller_module sample_ns 1 (Some 1) (ExStr "logging") true
      ([frame_resolver] ++ [frame_logging] ++ frame_app :: [frame_run])
    = Returned (current_or_missing sample_ns true)
  ∧ resolve_caller_filename sample_ns sample_argv 1 (Some 1) ExNone true
      true true
      ([frame_resolver] ++ [frame_logging] ++ frame_app :: [frame_run])
    = Returned (fallbacks sample_ns sample_argv true true true).
Proof.
  destruct (depth_limit_after_skip sample_ns sample_argv)
    as (Hskip & _ & _ & _ & Hmodule & Hfile).
  split; [|split].
  - by apply Hskip.
  - apply Hmodule; [reflexivity | | simpl; lia].
    repeat constructor. exists "logging". split; [reflexivity|].
    apply module_accepted_false. by vm_compute.
  - apply Hfile; [reflexivity | | simpl; lia].
    exists "/usr/lib/python3.12/logging/__init__.py".
    split; [reflexivity|]. split; [|exact I].
    right. apply should_exclude_spec. by vm_compute.
Defined.

Lemma filter_always_allows_witness :
  ∃ record',
    CallerInfoFilter.filter sample_ns sample_argv
      (CallerInfoFilter.__init__ "caller" None None 0 true)
      {[ "msg" := ObjStr "started"; "levelno" := ObjInt 20 ]}
      logging_stack
    = Returned (record', true)
    ∧ record' !! "caller" = Some (ObjStr "main.py")
    ∧ record' !! "msg" = Some (ObjStr "started").
Proof.
  destruct (proj1 (filter_always_allows sample_ns sample_argv
                     (CallerInfoFilter.__init__ "caller" None None 0 true)
                     {[ "msg" := ObjStr "started"; "levelno" := ObjInt 20 ]}
                     logging_stack))
    as (caller & record' & Hcall & Hfilter & Hattr & Hother).
  { by repeat split. }
  exists record'. split; [exact Hfilter|].
  assert (caller = Str "main.py") as -> by (vm_compute in Hcall; congruence).
  split; [exact Hattr|].
  rewrite (Hother "msg") by discriminate. reflexivity.
Defined.

(** C7 as the specification words it: the filter would return [True] for
    every record whatever its configuration.  With [attribute_name] set
    to ["__dict__"] the [setattr] of line 324 raises [TypeError], a string
    being no dictionary, and [filter] returns nothing. *)
Lemma filter_raises_on_reserved_attribute :
  CallerInfoFilter.filter sample_ns sample_argv
    (CallerInfoFilter.__init__ "__dict__" None None 0 true)
    {[ "msg" := ObjStr "started" ]} logging_stack
  = Raised (Exception "TypeError")
  ∧ ¬ (∀ self (record : gmap string object) frame,
         ∃ record',
           CallerInfoFilter.filter sample_ns sample_argv self record frame
           = Returned (record', true)).
Proof.
  split; [by vm_compute|]. intros Hclaim.
  destruct (Hclaim (CallerInfoFilter.__init__ "__dict__" None None 0 true)
              {[ "msg" := ObjStr "started" ]} logging_stack)
    as [record' Hfilter].
  by vm_compute in Hfilter.
Qed.


Lemma seen_frames_consume_depth_witness :
  resolve_caller_filename sample_ns sample_argv 1 (Some 2) ExNone true true
    true
    ([frame_resolver] ++ frame_logging :: [frame_logging; frame_logging]
     ++ frame_app :: [frame_run])
  = Returned (fallbacks sample_ns sample_argv true true true)
  ∧ resolve_caller_filename sample_ns sample_argv 1 (Some 2) ExNone true
      true true ([frame_resolver] ++ frame_logging :: frame_app :: [frame_run])
    = Returned (Str (rendered true "/srv/app/main.py")).
Proof.
  apply (proj2 (seen_frames_consume_depth sample_ns sample_argv) 1 2 ExNone
           true true true [frame_resolver] [frame_logging; frame_logging]
           frame_logging frame_app [frame_run]
           "/usr/lib/python3.12/logging/__init__.py" "/srv/app/main.py").
  - reflexivity.
  - reflexivity.
  - apply should_exclude_spec. by vm_compute.
  - by repeat constructor.
  - reflexivity.
  - apply should_exclude_false. by vm_compute.
  - simpl. lia.
Defined.

Lemma fallback_to_current_never_missing_witness :
  (resolve_caller_module sample_ns 1 None ExNone false [frame_resolver]
   = Returned MISSING ∧ false = false)
  ∧ (resolve_caller_filename sample_ns [] 1 None ExNone true true false
       [frame_resolver]
     = Returned MISSING
     ∧ false = false ∧ (true = false ∨ @nil string = []))
  ∧ resolve_caller_filename sample_ns [] 3 None ExNone true true false []
    = Returned MISSING.
Proof.
  destruct (fallback_to_current_never_missing sample_ns [])
    as (_ & _ & Hmodule & Hfile & _ & Hreach).
  split; [|split].
  - split; [reflexivity|].
    by apply (Hmodule 1 None ExNone false [frame_resolver]).
  - split; [reflexivity|].
    by apply (Hfile 1 None ExNone true true false [frame_resolver]).
  - apply Hreach. by right.
Defined.

(** C10 as the specification words it for the module resolver: with
    [fallback_to_current = true] it would return a string on every input.
    The read of the second frame below faults, no handler stands between
    the loop and the caller, and the call raises. *)
Lemma resolve_caller_module_raises_despite_fallback :
  f_globals_name frame_faulty = Fault (Exception "RuntimeError")
  ∧ resolve_caller_module sample_ns 1 None ExNone true
      [frame_resolver; frame_faulty; frame_app]
    = Raised (Exception "RuntimeError")
  ∧ ¬ (∀ stack_start max_stack_depth excluded_prefixes stack,
         ∃ s, resolve_caller_module sample_ns stack_start max_stack_depth
                excluded_prefixes true stack
              = Returned (Str s)).
Proof.
  split; [reflexivity|]. split; [reflexivity|]. intros Hclaim.
  destruct (Hclaim 1 None ExNone [frame_resolver; frame_faulty; frame_app])
    as [s Hs].
  discriminate Hs.
Qed.

End Sample.

(* ===================================================================== *)
(** * The resolvers as searches over a window of the stack *)
(* ===================================================================== *)

Lemma skip_frames_Some n (stack frame : list Frame) :
  skip_frames n stack = Some frame → frame = drop n stack.
Proof.
  revert stack. induction n as [|n IH]; intros stack Hskip; simpl in *.
  - by injection Hskip.
  - destruct stack as [|f stack]; [done | by apply IH].
Qed.

Lemma skip_frames_None n (stack : list Frame) :
  skip_frames n stack = None → drop n stack = [].
Proof.
  revert stack. induction n as [|n IH]; intros stack Hskip; simpl in *;
    [done|].
  destruct stack as [|f stack]; [done | by apply IH].
Qed.

(** Frames that all lie within the limit are walked as if there were no
    limit. *)
Lemma module_loop_within d prefix_set frames i :
  Z.of_nat (length frames) ≤ Z.max 0 (d - i) →
  module_loop (Some d) prefix_set frames i
  = module_loop None prefix_set frames i.
Proof.
  revert i. induction frames as [|f frames IH]; intros i Hlen; [done|].
  simpl in *. rewrite (proj2 (Z.ltb_lt i d)) by lia.
  destruct (f_globals_name f); [|done].
  rewrite IH by lia. done.
Qed.

Lemma module_loop_window max_stack_depth prefix_set (frames : list Frame) :
  module_loop max_stack_depth prefix_set frames 0
  = module_loop None prefix_set
      (match max_stack_depth with
       | None => frames
       | Some d => take (Z.to_nat d) frames
       end) 0.
Proof.
  destruct max_stack_depth as [d|]; [|done].
  rewrite module_loop_take, Z.sub_0_r. apply module_loop_within.
  rewrite length_take. lia.
Qed.

Lemma module_loop_find prefix_set (frames : list Frame) names i :
  f_globals_name <$> frames = Value <$> names →
  module_loop None prefix_set frames i
  = match List.find (module_accepted prefix_set) names with
    | Some module_name => Return (Str module_name)
    | None => Normal
    end.
Proof.
  revert names i. induction frames as [|f frames IH]; intros names i Hread.
  - by destruct names.
  - destruct names as [|m names]; [done|]. injection Hread as Hf Hread.
    simpl. rewrite Hf. destruct (module_accepted prefix_set m); [done|].
    by apply IH.
Qed.

(** X1.  When the module identifiers of the frames in the window (after
    the skipped frames, within the depth limit) all read, the result of
    [resolve_caller_module] is the first of these identifiers that passes
    the acceptance test, and the fallback when none does; frames outside
    the window play no part. *)
Theorem resolve_caller_module_first_match ns stack_start max_stack_depth
    excluded_prefixes fallback_to_current (stack : list Frame) names :
  f_globals_name <$> window stack_start max_stack_depth stack
  = Value <$> names →
  resolve_caller_module ns stack_start max_stack_depth excluded_prefixes
    fallback_to_current stack
  = Returned
      match List.find (module_accepted (prefix_set_of excluded_prefixes))
                      names with
      | Some module_name => Str module_name
      | None => current_or_missing ns fallback_to_current
      end.
Proof.
  unfold window, resolve_caller_module. intros Hread.
  destruct (skip_frames _ stack) as [frame|] eqn:Hskip.
  - apply skip_frames_Some in Hskip as ->.
    rewrite module_loop_window, (module_loop_find _ _ names) by done.
    by destruct (List.find _ names).
  - apply skip_frames_None in Hskip. rewrite Hskip in Hread.
    assert (names = []) as ->
      by (destruct max_stack_depth, names; by try rewrite take_nil in Hread).
    done.
Qed.

Section FileSearch.
Context {platform : Platform}.
Variable ns : module_ns.
Variable sys_argv : list string.

Lemma filename_loop_within d pattern_set return_basename frames i seen_files :
  Z.of_nat (length frames) ≤ Z.max 0 (d - i) →
  filename_loop (Some d) pattern_set return_basename frames i seen_files
  = filename_loop None pattern_set return_basename frames i seen_files.
Proof.
  revert i seen_files.
  induction frames as [|f frames IH]; intros i seen_files Hlen; [done|].
  simpl in *. rewrite (proj2 (Z.ltb_lt i d)) by lia.
  destruct (f_code_co_filename f); [|done].
  rewrite !IH by lia. done.
Qed.

Lemma filename_loop_window max_stack_depth pattern_set return_basename
    (frames : list Frame) :
  filename_loop max_stack_depth pattern_set return_basename frames 0 ∅
  = filename_loop None pattern_set return_basename
      (match max_stack_depth with
       | None => frames
       | Some d => take (Z.to_nat d) frames
       end) 0 ∅.
Proof.
  destruct max_stack_depth as [d|]; [|done].
  rewrite filename_loop_take, Z.sub_0_r. apply filename_loop_within.
  rewrite length_take. lia.
Qed.

(** While every seen path is an excluded one, the seen set decides nothing
    the exclusion test would not decide. *)
Lemma filename_loop_find pattern_set return_basename (frames : list Frame)
    paths i seen_files :
  (∀ p, p ∈ seen_files → should_exclude pattern_set p = true) →
  f_code_co_filename <$> frames = Value <$> paths →
  filename_loop None pattern_set return_basename frames i seen_files
  = match List.find (λ p, negb (should_exclude pattern_set p)) paths with
    | Some caller_path => Return (Str (rendered return_basename caller_path))
    | None => Normal
    end.
Proof.
  revert paths i seen_files.
  induction frames as [|f frames IH]; intros paths i seen_files Hseen Hread.
  - by destruct paths.
  - destruct paths as [|p paths]; [done|]. injection Hread as Hf Hread.
    simpl. rewrite Hf. case_bool_decide as Hnew.
    + destruct (should_exclude pattern_set p) eqn:Hex; simpl; [|done].
      apply IH; [|done]. intros q [->%elem_of_singleton | ?]%elem_of_union;
        [done | by apply Hseen].
    + rewrite Hseen by done. simpl. by apply IH.
Qed.

(** X2.  When the paths of the frames in the window all read, the result of
    [resolve_caller_filename] is the first of these paths that passes
    neither exclusion test, rendered, and the fallback value when there is
    none: the seen set saves evaluations and never changes the result. *)
Theorem resolve_caller_filename_first_match stack_start max_stack_depth
    excluded_patterns return_basename fallback_to_argv fallback_to_current
    (stack : list Frame) paths :
  f_code_co_filename <$> window stack_start max_stack_depth stack
  = Value <$> paths →
  resolve_caller_filename ns sys_argv stack_start max_stack_depth
    excluded_patterns return_basename fallback_to_argv fallback_to_current
    stack
  = Returned
      match List.find
              (λ p, negb (should_exclude (pattern_set_of ns excluded_patterns)
                                         p)) paths with
      | Some caller_path => Str (rendered return_basename caller_path)
      | None => fallbacks ns sys_argv return_basename fallback_to_argv
                          fallback_to_current
      end.
Proof.
  unfold window, resolve_caller_filename, filename_try. intros Hread.
  destruct (skip_frames _ stack) as [frame|] eqn:Hskip.
  - apply skip_frames_Some in Hskip as ->.
    rewrite filename_loop_window, (filename_loop_find _ _ _ paths);
      [by destruct (List.find _ paths) | | done].
    intros p Hin. by apply not_elem_of_empty in Hin.
  - apply skip_frames_None in Hskip. rewrite Hskip in Hread.
    assert (paths = []) as ->
      by (destruct max_stack_depth, paths; by try rewrite take_nil in Hread).
    done.
Qed.

Lemma filename_loop_basename max_stack_depth pattern_set frames i seen_files :
  filename_loop max_stack_depth pattern_set true frames i seen_files
  = match filename_loop max_stack_depth pattern_set false frames i
            seen_files with
    | Return v => Return (map_result Path_name v)
    | other => other
    end.
Proof.
  revert i seen_files.
  induction frames as [|f frames IH]; intros i seen_files; simpl; [done|].
  destruct (within_depth max_stack_depth i); [|done].
  destruct (f_code_co_filename f) as [p|e]; [|done].
  case_bool_decide; [|apply IH].
  destruct (should_exclude pattern_set p); simpl; [apply IH | done].
Qed.

Lemma fallbacks_basename fallback_to_argv fallback_to_current :
  fallbacks ns sys_argv true fallback_to_argv fallback_to_current
  = map_result Path_name
      (fallbacks ns sys_argv false fallback_to_argv fallback_to_current).
Proof.
  unfold fallbacks.
  destruct (if fallback_to_argv then sys_argv else []); [|done].
  by destruct fallback_to_current.
Qed.

(** X3.  Asking [resolve_caller_filename] for the base name gives the
    [Path(...).name] of what it returns when asked for the full path, on
    every input: [return_basename] changes the rendering of the result and
    never which frame or fallback is chosen. *)
Theorem resolve_caller_filename_basename stack_start max_stack_depth
    excluded_patterns fallback_to_argv fallback_to_current stack :
  resolve_caller_filename ns sys_argv stack_start max_stack_depth
    excluded_patterns true fallback_to_argv fallback_to_current stack
  = match resolve_caller_filename ns sys_argv stack_start max_stack_depth
            excluded_patterns false fallback_to_argv fallback_to_current
            stack with
    | Returned v => Returned (map_result Path_name v)
    | Raised e => Raised e
    end.
Proof.
  unfold resolve_caller_filename, filename_try.
  destruct (skip_frames _ stack) as [frame|];
    [|by rewrite fallbacks_basename].
  rewrite filename_loop_basename.
  destruct (filename_loop _ _ false frame 0 ∅);
    by rewrite ?fallbacks_basename.
Qed.

End FileSearch.

(* ===================================================================== *)
(** * What a resolver can return *)
(* ===================================================================== *)

Lemma module_loop_sound max_stack_depth prefix_set stack i :
  let run := module_loop max_stack_depth prefix_set stack i in
  run = Normal
  ∨ (∃ f module_name,
       f ∈ stack ∧ f_globals_name f = Value module_name
       ∧ module_accepted prefix_set module_name = true
       ∧ run = Return (Str module_name))
  ∨ (∃ f e, f ∈ stack ∧ f_globals_name f = Fault e ∧ run = Raise e).
Proof.
  revert i. induction stack as [|f stack IH]; intros i; simpl; [by left|].
  destruct (within_depth max_stack_depth i); [|by left].
  destruct (f_globals_name f) as [m | e] eqn:Hread.
  - destruct (module_accepted prefix_set m) eqn:Hacc.
    { right; left. exists f, m. by repeat split; [left|..]. }
    destruct (IH (i + 1))
      as [? | [(g & m' & Hin & ? & ? & ?) | (g & e & Hin & ? & ?)]];
      [by left | right; left | right; right].
    + exists g, m'. by repeat split; [right|..].
    + exists g, e. by repeat split; [right|..].
  - right; right. exists f, e. by repeat split; [left|..].
Qed.

Section Soundness.
Context {platform : Platform}.
Variable ns : module_ns.
Variable sys_argv : list string.

Lemma filename_loop_sound max_stack_depth pattern_set return_basename
    stack i seen_files :
  let run := filename_loop max_stack_depth pattern_set return_basename
               stack i seen_files in
  run = Normal
  ∨ (∃ f caller_path,
       f ∈ stack ∧ f_code_co_filename f = Value caller_path
       ∧ should_exclude pattern_set caller_path = false
       ∧ run = Return (Str (rendered return_basename caller_path)))
  ∨ (∃ e, run = Raise e).
Proof.
  revert i seen_files.
  induction stack as [|f stack IH]; intros i seen_files; simpl; [by left|].
  destruct (within_depth max_stack_depth i); [|by left].
  destruct (f_code_co_filename f) as [p | e] eqn:Hread;
    [|right; right; by exists e].
  assert (∀ j seen,
            let run := filename_loop max_stack_depth pattern_set
                         return_basename stack j seen in
            run = Normal
            ∨ (∃ g caller_path,
                 g ∈ f :: stack ∧ f_code_co_filename g = Value caller_path
                 ∧ should_exclude pattern_set caller_path = false
                 ∧ run = Return (Str (rendered return_basename caller_path)))
            ∨ (∃ e, run = Raise e)) as Hnext.
  { intros j seen.
    destruct (IH j seen) as [? | [(g & q & Hin & ? & ? & ?) | ?]];
      [by left | right; left | by right; right].
    exists g, q. by repeat split; [right|..]. }
  case_bool_decide; [|apply Hnext].
  destruct (should_exclude pattern_set p) eqn:Hex; simpl; [apply Hnext|].
  right; left. exists f, p. by repeat split; [left|..].
Qed.

(** X4.  Whatever a resolver returns is a fallback value or comes from a
    frame behind the skipped ones that passes its tests.
    [resolve_caller_filename] returns the fallback value or the rendered
    path of such a frame whose path contains no pattern of the set and
    whose case-folded path contains no environment marker.
    [resolve_caller_module] returns the fallback value or the non-empty
    identifier of such a frame that starts with no prefix of the set, or
    raises the fault of such a frame. *)
Theorem resolvers_return_accepted_frames :
  (∀ stack_start max_stack_depth excluded_patterns return_basename
     fallback_to_argv fallback_to_current stack,
     let returned :=
       resolve_caller_filename ns sys_argv stack_start max_stack_depth
         excluded_patterns return_basename fallback_to_argv
         fallback_to_current stack in
     returned = Returned (fallbacks ns sys_argv return_basename
                            fallback_to_argv fallback_to_current)
     ∨ ∃ f caller_path,
         f ∈ drop (Z.to_nat stack_start) stack
         ∧ f_code_co_filename f = Value caller_path
         ∧ ¬ path_internal (pattern_set_of ns excluded_patterns) caller_path
         ∧ returned = Returned (Str (rendered return_basename caller_path)))
  ∧ (∀ stack_start max_stack_depth excluded_prefixes fallback_to_current
       stack,
       let returned :=
         resolve_caller_module ns stack_start max_stack_depth
           excluded_prefixes fallback_to_current stack in
       returned = Returned (current_or_missing ns fallback_to_current)
       ∨ (∃ f module_name,
            f ∈ drop (Z.to_nat stack_start) stack
            ∧ f_globals_name f = Value module_name
            ∧ ¬ module_internal (prefix_set_of excluded_prefixes) module_name
            ∧ returned = Returned (Str module_name))
       ∨ (∃ f e,
            f ∈ drop (Z.to_nat stack_start) stack
            ∧ f_globals_name f = Fault e
            ∧ returned = Raised e)).
Proof.
  split.
  - intros. subst returned. unfold resolve_caller_filename, filename_try.
    destruct (skip_frames _ stack) as [frame|] eqn:Hskip; [|by left].
    apply skip_frames_Some in Hskip as ->.
    destruct (filename_loop_sound max_stack_depth
                (pattern_set_of ns excluded_patterns) return_basename
                (drop (Z.to_nat stack_start) stack) 0 ∅)
      as [-> | [(f & p & Hin & Hread & Hex & ->) | [e ->]]];
      [by left | right | by left].
    exists f, p. repeat split; try done. by apply should_exclude_false.
  - intros. subst returned. unfold resolve_caller_module.
    destruct (skip_frames _ stack) as [frame|] eqn:Hskip; [|by left].
    apply skip_frames_Some in Hskip as ->.
    destruct (module_loop_sound max_stack_depth
                (prefix_set_of excluded_prefixes)
                (drop (Z.to_nat stack_start) stack) 0)
      as [-> | [(f & m & Hin & Hread & Hacc & ->) | (f & e & Hin & Hread & ->)]];
      [by left | right; left | right; right].
    + exists f, m. repeat split; try done.
      rewrite <- module_accepted_false. congruence.
    + by exists f, e.
Qed.

(* ===================================================================== *)
(** * Arguments at the edge *)
(* ===================================================================== *)

(** X5.  A negative [stack_start] skips nothing: it resolves as [0] does,
    [range] of a negative number being empty.  A [max_stack_depth] of zero
    or less lets the loop inspect no frame, so both resolvers fall back on
    every stack. *)
Theorem negative_start_and_empty_depth :
  (∀ stack_start max_stack_depth excluded_prefixes fallback_to_current
     stack,
     stack_start ≤ 0 →
     resolve_caller_module ns stack_start max_stack_depth excluded_prefixes
       fallback_to_current stack
     = resolve_caller_module ns 0 max_stack_depth excluded_prefixes
         fallback_to_current stack)
  ∧ (∀ stack_start max_stack_depth excluded_patterns return_basename
       fallback_to_argv fallback_to_current stack,
       stack_start ≤ 0 →
       resolve_caller_filename ns sys_argv stack_start max_stack_depth
         excluded_patterns return_basename fallback_to_argv
         fallback_to_current stack
       = resolve_caller_filename ns sys_argv 0 max_stack_depth
           excluded_patterns return_basename fallback_to_argv
           fallback_to_current stack)
  ∧ (∀ stack_start d excluded_prefixes fallback_to_current stack,
       d ≤ 0 →
       resolve_caller_module ns stack_start (Some d) excluded_prefixes
         fallback_to_current stack
       = Returned (current_or_missing ns fallback_to_current))
  ∧ (∀ stack_start d excluded_patterns return_basename fallback_to_argv
       fallback_to_current stack,
       d ≤ 0 →
       resolve_caller_filename ns sys_argv stack_start (Some d)
         excluded_patterns return_basename fallback_to_argv
         fallback_to_current stack
       = Returned (fallbacks ns sys_argv return_basename fallback_to_argv
                             fallback_to_current)).
Proof.
  split; [|split; [|split]].
  - intros * Hneg. unfold resolve_caller_module.
    by replace (Z.to_nat stack_start) with (Z.to_nat 0) by lia.
  - intros * Hneg. unfold resolve_caller_filename, filename_try.
    by replace (Z.to_nat stack_start) with (Z.to_nat 0) by lia.
  - intros * Hd. unfold resolve_caller_module.
    destruct (skip_frames _ stack) as [frame|]; [|done].
    rewrite module_loop_exhausted; [done|]. right. simpl.
    apply Z.ltb_ge. lia.
  - intros * Hd. unfold resolve_caller_filename, filename_try.
    destruct (skip_frames _ stack) as [frame|]; [|done].
    rewrite filename_loop_exhausted; [done|]. right. simpl.
    apply Z.ltb_ge. lia.
Qed.

(* ===================================================================== *)
(** * Patterns that add nothing, and the pattern that takes everything *)
(* ===================================================================== *)

Lemma str_app_assoc (a b c : string) : (a +:+ b) +:+ c = a +:+ b +:+ c.
Proof.
  induction a as [|x a IH]; [done|].
  change (String x ((a +:+ b) +:+ c) = String x (a +:+ b +:+ c)).
  by rewrite IH.
Qed.

Lemma occurs_in_trans r q p : occurs_in r q → occurs_in q p → occurs_in r p.
Proof.
  intros (b1 & a1 & ->) (b2 & a2 & ->).
  exists (b2 +:+ b1), (a1 +:+ a2). by rewrite !str_app_assoc.
Qed.

Lemma is_prefix_of_trans r q m :
  is_prefix_of r q → is_prefix_of q m → is_prefix_of r m.
Proof.
  intros (a1 & ->) (a2 & ->). exists (a1 +:+ a2). by rewrite str_app_assoc.
Qed.

Lemma occurs_in_empty p : occurs_in "" p.
Proof. by exists "", p. Qed.

Lemma filename_loop_ext max_stack_depth pattern_set pattern_set'
    return_basename frames i seen_files :
  (∀ p, should_exclude pattern_set p = should_exclude pattern_set' p) →
  filename_loop max_stack_depth pattern_set return_basename frames i
    seen_files
  = filename_loop max_stack_depth pattern_set' return_basename frames i
      seen_files.
Proof.
  intros Hext. revert i seen_files.
  induction frames as [|f frames IH]; intros i seen_files; simpl; [done|].
  destruct (within_depth max_stack_depth i); [|done].
  destruct (f_code_co_filename f) as [p|e]; [|done].
  by rewrite Hext, !IH.
Qed.

Lemma module_loop_ext max_stack_depth prefix_set prefix_set' frames i :
  (∀ m, module_accepted prefix_set m = module_accepted prefix_set' m) →
  module_loop max_stack_depth prefix_set frames i
  = module_loop max_stack_depth prefix_set' frames i.
Proof.
  intros Hext. revert i.
  induction frames as [|f frames IH]; intros i; simpl; [done|].
  destruct (within_depth max_stack_depth i); [|done].
  destruct (f_globals_name f) as [m|e]; [|done].
  by rewrite Hext, IH.
Qed.

(** X6.  A pattern that contains another pattern of the set adds nothing
    to [resolve_caller_filename], and a prefix that extends another prefix
    of the set adds nothing to [resolve_caller_module]: with or without
    it the resolver ends the same way on every stack. *)
Theorem subsumed_patterns_are_redundant :
  (∀ stack_start max_stack_depth (pattern_set : gset string) longer shorter
     return_basename fallback_to_argv fallback_to_current stack,
     shorter ∈ pattern_set →
     occurs_in shorter longer →
     resolve_caller_filename ns sys_argv stack_start max_stack_depth
       (ExColl ({[ longer ]} ∪ pattern_set)) return_basename
       fallback_to_argv fallback_to_current stack
     = resolve_caller_filename ns sys_argv stack_start max_stack_depth
         (ExColl pattern_set) return_basename fallback_to_argv
         fallback_to_current stack)
  ∧ (∀ stack_start max_stack_depth (prefix_set : gset string) longer shorter
       fallback_to_current stack,
       shorter ∈ prefix_set →
       is_prefix_of shorter longer →
       resolve_caller_module ns stack_start max_stack_depth
         (ExColl ({[ longer ]} ∪ prefix_set)) fallback_to_current stack
       = resolve_caller_module ns stack_start max_stack_depth
           (ExColl prefix_set) fallback_to_current stack).
Proof.
  split.
  - intros * Hin Hsub. unfold resolve_caller_filename, filename_try.
    destruct (skip_frames _ stack) as [frame|]; [|done].
    simpl pattern_set_of.
    rewrite (filename_loop_ext _ _ pattern_set); [done|].
    intros p. apply eq_true_iff_eq. rewrite !should_exclude_spec.
    unfold path_internal. split; (intros [(q & Hq & Hocc) | ?]; [|by right]);
      left.
    + apply elem_of_union in Hq as [->%elem_of_singleton | Hq].
      * exists shorter. split; [done | by apply (occurs_in_trans _ longer)].
      * by exists q.
    + exists q. split; [by apply elem_of_union_r | done].
  - intros * Hin Hsub. unfold resolve_caller_module.
    destruct (skip_frames _ stack) as [frame|]; [|done].
    simpl prefix_set_of.
    rewrite (module_loop_ext _ _ prefix_set); [done|].
    intros m. apply eq_true_iff_eq. rewrite !module_accepted_spec.
    split; intros [Hne Hno]; (split; [done|]); intros (q & Hq & Hpre);
      apply Hno.
    + exists q. split; [by apply elem_of_union_r | done].
    + apply elem_of_union in Hq as [->%elem_of_singleton | Hq].
      * exists shorter. split; [done | by apply (is_prefix_of_trans _ longer)].
      * by exists q.
Qed.

(** X7.  The empty string is contained in every path and starts every
    module identifier.  With it among the patterns
    [resolve_caller_filename] accepts no frame and returns the fallback
    value on every stack; with it among the prefixes
    [resolve_caller_module] accepts no frame either, and returns its
    fallback value or raises the fault of a frame. *)
Theorem empty_string_excludes_every_frame :
  (∀ stack_start max_stack_depth excluded_patterns return_basename
     fallback_to_argv fallback_to_current stack,
     "" ∈ pattern_set_of ns excluded_patterns →
     resolve_caller_filename ns sys_argv stack_start max_stack_depth
       excluded_patterns return_basename fallback_to_argv
       fallback_to_current stack
     = Returned (fallbacks ns sys_argv return_basename fallback_to_argv
                           fallback_to_current))
  ∧ (∀ stack_start max_stack_depth excluded_prefixes fallback_to_current
       stack,
       "" ∈ prefix_set_of excluded_prefixes →
       let returned :=
         resolve_caller_module ns stack_start max_stack_depth
           excluded_prefixes fallback_to_current stack in
       returned = Returned (current_or_missing ns fallback_to_current)
       ∨ ∃ f e, f ∈ stack ∧ f_globals_name f = Fault e
                ∧ returned = Raised e).
Proof.
  split.
  - intros * Hin. unfold resolve_caller_filename, filename_try.
    destruct (skip_frames _ stack) as [frame|]; [|done].
    destruct (filename_loop_sound max_stack_depth
                (pattern_set_of ns excluded_patterns) return_basename
                frame 0 ∅)
      as [-> | [(f & p & _ & _ & Hex & _) | [e ->]]]; [done | | done].
    apply should_exclude_false in Hex. exfalso. apply Hex. left.
    exists "". split; [done | apply occurs_in_empty].
  - intros * Hin returned. subst returned. unfold resolve_caller_module.
    destruct (skip_frames _ stack) as [frame|] eqn:Hskip; [|by left].
    destruct (module_loop_sound max_stack_depth
                (prefix_set_of excluded_prefixes) frame 0)
      as [-> | [(f & m & _ & _ & Hacc & _) | (f & e & Hf & Hread & ->)]];
      [by left | | right].
    + apply module_accepted_spec in Hacc as [_ Hno]. exfalso. apply Hno.
      exists "". split; [done | by exists m].
    + exists f, e. repeat split; [|done].
      by apply (skip_frames_suffix _ _ _ _ Hskip).
Qed.

End Soundness.

(* ===================================================================== *)
(** * The legacy file resolver *)
(* ===================================================================== *)

Section LegacyFileResolution.
Context {platform : Platform}.
Variable ns : module_ns.
Variable sys_argv : list string.



Lemma bbb_loop_cases (exclude_patterns : gset string) stack seen_files :
  bbb_loop exclude_patterns stack seen_files = Normal
  ∨ ∃ s, bbb_loop exclude_patterns stack seen_files = Return (Str s).
Proof.
  revert seen_files.
  induction stack as [|p stack IH]; intros seen_files; simpl; [by left|].
  repeat case_match; try apply IH. right. by eexists.
Qed.

(** X8.  [bbb] raises nothing, also when [inspect.stack()] does: it
    returns a value, which is a string when [fallback_to_current] is set,
    and [MISSING] only when [fallback_to_current] is off and
    [fallback_to_argv] is off or [sys.argv] is empty. *)
Theorem bbb_always_returns stack_start exclude_patterns fallback_to_argv
    fallback_to_current inspect_stack :
  ∃ v,
    bbb ns sys_argv stack_start exclude_patterns fallback_to_argv
      fallback_to_current inspect_stack
    = Returned v
    ∧ (fallback_to_current = true → ∃ s, v = Str s)
    ∧ (v = MISSING →
       fallback_to_current = false
       ∧ (fallback_to_argv = false ∨ sys_argv = [])).
Proof.
  assert (∃ v,
            bbb ns sys_argv stack_start exclude_patterns fallback_to_argv
              fallback_to_current inspect_stack
            = Returned v
            ∧ ((∃ s, v = Str s)
               ∨ v = fallbacks ns sys_argv true fallback_to_argv
                       fallback_to_current)) as (v & Hv & Hcases).
  { unfold bbb. destruct inspect_stack as [entries|e]; [|by eexists; eauto].
    destruct (bbb_loop_cases
                (match exclude_patterns with
                 | Some patterns => patterns
                 | None => bbb_default_patterns ns
                 end) (slice_from stack_start entries) ∅) as [-> | [s ->]];
      eexists; eauto. }
  exists v. split; [done|]. split.
  - intros ->. destruct Hcases as [? | ->]; [done|].
    apply fallbacks_current.
  - intros ->. destruct Hcases as [[s ?] | Hfb]; [done|].
    by apply (fallbacks_missing ns sys_argv true).
Qed.


(** X10.  A negative [stack_start] makes [bbb] search the outermost
    entries only: the slice [stack[stack_start:]] keeps the last
    [- stack_start] entries of the stack, and the whole stack when it has
    no more than that. *)
Theorem bbb_negative_start_searches_the_tail stack_start exclude_patterns
    fallback_to_argv fallback_to_current :
  stack_start < 0 →
  (∀ inner outer : list string,
     length outer = Z.to_nat (- stack_start) →
     bbb ns sys_argv stack_start exclude_patterns fallback_to_argv
       fallback_to_current (Value (inner ++ outer)%list)
     = bbb ns sys_argv 0 exclude_patterns fallback_to_argv
         fallback_to_current (Value outer))
  ∧ (∀ entries : list string,
       (length entries ≤ Z.to_nat (- stack_start))%nat →
       bbb ns sys_argv stack_start exclude_patterns fallback_to_argv
         fallback_to_current (Value entries)
       = bbb ns sys_argv 0 exclude_patterns fallback_to_argv
           fallback_to_current (Value entries)).
Proof.
  intros Hneg. unfold bbb, slice_from.
  rewrite (proj2 (Z.leb_gt 0 stack_start)) by done. simpl. split.
  - intros inner outer Hlen. rewrite length_app, <- Hlen.
    replace (length inner + length outer - length outer)%nat
      with (length inner) by lia.
    by rewrite drop_app_length.
  - intros entries Hlen.
    by replace (length entries - Z.to_nat (- stack_start))%nat with O by lia.
Qed.

End LegacyFileResolution.

(* ===================================================================== *)
(** * More on the record filter *)
(* ===================================================================== *)

Section RecordFilterMore.
Context {platform : Platform}.
Variable ns : module_ns.
Variable sys_argv : list string.

(** What [CallerInfoFilter.filter] does to a record, with the string it
    stores. *)
Lemma filter_inserts_a_string self (record : gmap string object) frame :
  writable (CallerInfoFilter.attribute_name self) →
  ∃ s,
    CallerInfoFilter.filter ns sys_argv self record frame
    = Returned (<[ CallerInfoFilter.attribute_name self := ObjStr s ]> record,
                true).
Proof.
  intros Hname. unfold CallerInfoFilter.filter.
  destruct (resolve_caller_filename_cases ns sys_argv
              (8 + CallerInfoFilter.stack_offset self) None
              (ExColl (CallerInfoFilter.exclude_patterns self)) true
              (CallerInfoFilter.fallback_to_argv self) true
              (CallerInfoFilter.resolver_frame ns :: frame))
    as [[s ->] | ->].
  - exists s. by rewrite setattr_writable.
  - destruct (fallbacks_current ns sys_argv true
                (CallerInfoFilter.fallback_to_argv self)) as [s ->].
    exists s. by rewrite setattr_writable.
Qed.

(** X11.  Under an [attribute_name] that [setattr] can store, the
    attribute [CallerInfoFilter.filter] writes is always a string, never
    the [MISSING] marker: the filter leaves [fallback_to_current] at its
    default, so the resolver's own file name is there when everything
    else fails. *)
Theorem filter_writes_a_string self (record : gmap string object) frame :
  writable (CallerInfoFilter.attribute_name self) →
  ∃ s record',
    CallerInfoFilter.filter ns sys_argv self record frame
    = Returned (record', true)
    ∧ record' !! CallerInfoFilter.attribute_name self = Some (ObjStr s).
Proof.
  intros Hname.
  destruct (filter_inserts_a_string self record frame Hname) as [s ->].
  eexists s, _. split; [done|]. by rewrite lookup_insert_eq.
Qed.

(** X12.  On one stack, running [CallerInfoFilter.filter] again on the
    record it produced changes nothing, and two filters with different
    attribute names, both names that [setattr] can store, give the same
    record in either order. *)
Theorem filter_idempotent_and_commuting :
  (∀ self (record : gmap string object) frame record',
     CallerInfoFilter.filter ns sys_argv self record frame
     = Returned (record', true) →
     CallerInfoFilter.filter ns sys_argv self record' frame
     = Returned (record', true))
  ∧ (∀ self1 self2 (record : gmap string object) frame,
       writable (CallerInfoFilter.attribute_name self1) →
       writable (CallerInfoFilter.attribute_name self2) →
       CallerInfoFilter.attribute_name self1
       ≠ CallerInfoFilter.attribute_name self2 →
       ∃ record1 record2 both,
         CallerInfoFilter.filter ns sys_argv self1 record frame
         = Returned (record1, true)
         ∧ CallerInfoFilter.filter ns sys_argv self2 record frame
           = Returned (record2, true)
         ∧ CallerInfoFilter.filter ns sys_argv self2 record1 frame
           = Returned (both, true)
         ∧ CallerInfoFilter.filter ns sys_argv self1 record2 frame
           = Returned (both, true)).
Proof.
  split.
  - intros self record frame record' Hfirst.
    unfold CallerInfoFilter.filter in *.
    destruct (resolve_caller_filename _ _ _ _ _ _ _ _ _) as [caller|e];
      [|done].
    destruct (setattr record _ _) as [stored|e] eqn:Hset; [|done].
    injection Hfirst as <-.
    apply setattr_returned in Hset as [Hname ->].
    rewrite setattr_writable by done. by rewrite insert_insert_eq.
  - intros self1 self2 record frame Hname1 Hname2 Hne.
    unfold CallerInfoFilter.filter.
    destruct (resolve_caller_filename_returns ns sys_argv
                (8 + CallerInfoFilter.stack_offset self1) None
                (ExColl (CallerInfoFilter.exclude_patterns self1)) true
                (CallerInfoFilter.fallback_to_argv self1) true
                (CallerInfoFilter.resolver_frame ns :: frame)) as [c1 ->].
    destruct (resolve_caller_filename_returns ns sys_argv
                (8 + CallerInfoFilter.stack_offset self2) None
                (ExColl (CallerInfoFilter.exclude_patterns self2)) true
                (CallerInfoFilter.fallback_to_argv self2) true
                (CallerInfoFilter.resolver_frame ns :: frame)) as [c2 ->].
    rewrite !setattr_writable by done.
    eexists _, _, _. split; [done|]. split; [done|].
    rewrite !setattr_writable by done. split; [done|].
    by rewrite insert_insert_ne.
Qed.

End RecordFilterMore.

(* ===================================================================== *)
(** * The level range filter *)
(* ===================================================================== *)

Section LevelRange.
Variable convert_level_to_int : level_arg → outcome Z.

(** What [__init__] returns when the conversions succeed. *)
Lemma init_returned min_level max_level min_inclusive max_inclusive name
    self :
  LevelRangeFilter.__init__ convert_level_to_int min_level max_level
    min_inclusive max_inclusive name = Returned self →
  (match min_level with
   | None => LevelRangeFilter.min_level self = NegInf
   | Some arg => ∃ x, convert_level_to_int arg = Returned x
                      ∧ LevelRangeFilter.min_level self = Level x
   end)
  ∧ (match max_level with
     | None => LevelRangeFilter.max_level self = PosInf
     | Some arg => ∃ y, convert_level_to_int arg = Returned y
                        ∧ LevelRangeFilter.max_level self = Level y
     end)
  ∧ ∀ levelno,
      LevelRangeFilter.filter self levelno = true
      ↔ above (LevelRangeFilter.min_level self) min_inclusive levelno
        ∧ below (LevelRangeFilter.max_level self) max_inclusive levelno.
Proof.
  unfold LevelRangeFilter.__init__. intros Hinit.
  destruct min_level as [a|], max_level as [b|];
    repeat match type of Hinit with
           | context [convert_level_to_int ?arg] =>
               destruct (convert_level_to_int arg) eqn:?; [|done]
           end;
    injection Hinit as <-; (split; [by eauto|]); (split; [by eauto|]);
    intros levelno; unfold LevelRangeFilter.filter; simpl;
    destruct min_inclusive, max_inclusive; simpl;
    repeat match goal with
           | |- context [?x <? ?y] => destruct (Z.ltb_spec x y)
           | |- context [?x <=? ?y] => destruct (Z.leb_spec x y)
           end; simpl; intuition (try done; try lia).
Qed.

(** X13.  A [LevelRangeFilter] lets a record through exactly when its
    level is on the right side of both bounds, each bound being inclusive
    or strict as asked and a bound given as [None] being open; the
    constructor raises what the conversion of a bound raises, the lower
    bound being converted first. *)
Theorem level_range_filter_range :
  (∀ min_level max_level min_inclusive max_inclusive name lo hi,
     resolved_bound convert_level_to_int min_level NegInf lo →
     resolved_bound convert_level_to_int max_level PosInf hi →
     ∃ self,
       LevelRangeFilter.__init__ convert_level_to_int min_level max_level
         min_inclusive max_inclusive name = Returned self
       ∧ LevelRangeFilter.min_level self = lo
       ∧ LevelRangeFilter.max_level self = hi
       ∧ ∀ levelno,
           LevelRangeFilter.filter self levelno = true
           ↔ above lo min_inclusive levelno ∧ below hi max_inclusive levelno)
  ∧ (∀ arg max_level min_inclusive max_inclusive name e,
       convert_level_to_int arg = Raised e →
       LevelRangeFilter.__init__ convert_level_to_int (Some arg) max_level
         min_inclusive max_inclusive name = Raised e)
  ∧ (∀ min_level arg min_inclusive max_inclusive name lo e,
       resolved_bound convert_level_to_int min_level NegInf lo →
       convert_level_to_int arg = Raised e →
       LevelRangeFilter.__init__ convert_level_to_int min_level (Some arg)
         min_inclusive max_inclusive name = Raised e).
Proof.
  split; [|split].
  - intros * Hlo Hhi.
    assert (∃ self,
              LevelRangeFilter.__init__ convert_level_to_int min_level
                max_level min_inclusive max_inclusive name = Returned self)
      as [self Hinit].
    { unfold LevelRangeFilter.__init__.
      destruct min_level as [a|], max_level as [b|]; simpl in Hlo, Hhi;
        repeat match goal with
               | H : ∃ _, _ ∧ _ |- _ => destruct H as (? & -> & ?)
               end; by eexists. }
    exists self. split; [done|].
    destruct (init_returned _ _ _ _ _ _ Hinit) as (Hmin & Hmax & Hrange).
    assert (LevelRangeFilter.min_level self = lo) as <-.
    { destruct min_level; simpl in Hlo; [|congruence].
      destruct Hmin as (x & Hx & ->), Hlo as (x' & Hx' & ->). congruence. }
    assert (LevelRangeFilter.max_level self = hi) as <-.
    { destruct max_level; simpl in Hhi; [|congruence].
      destruct Hmax as (x & Hx & ->), Hhi as (x' & Hx' & ->). congruence. }
    done.
  - intros * Hraise. unfold LevelRangeFilter.__init__. by rewrite Hraise.
  - intros * Hlo Hraise. unfold LevelRangeFilter.__init__. rewrite Hraise.
    destruct min_level; simpl in Hlo; [|done].
    by destruct Hlo as (x & -> & _).
Qed.

(** X14.  The special ranges of a filter built by [__init__]: with both
    bounds [None] every record passes; with a lower bound above the upper
    bound none does; with equal bounds only a record at that level passes,
    and only when both bounds are inclusive. *)
Theorem level_range_filter_special_ranges min_level max_level min_inclusive
    max_inclusive name self :
  LevelRangeFilter.__init__ convert_level_to_int min_level max_level
    min_inclusive max_inclusive name = Returned self →
  (min_level = None → max_level = None →
   ∀ levelno, LevelRangeFilter.filter self levelno = true)
  ∧ (∀ x y,
       LevelRangeFilter.min_level self = Level x →
       LevelRangeFilter.max_level self = Level y →
       y < x →
       ∀ levelno, LevelRangeFilter.filter self levelno = false)
  ∧ (∀ x,
       LevelRangeFilter.min_level self = Level x →
       LevelRangeFilter.max_level self = Level x →
       ∀ levelno,
         LevelRangeFilter.filter self levelno = true
         ↔ min_inclusive = true ∧ max_inclusive = true ∧ levelno = x).
Proof.
  intros Hinit.
  destruct (init_returned _ _ _ _ _ _ Hinit) as (Hmin & Hmax & Hrange).
  split; [|split].
  - intros -> -> levelno. apply Hrange. by rewrite Hmin, Hmax.
  - intros x y Hx Hy Hlt levelno. apply not_true_is_false.
    rewrite Hrange, Hx, Hy. simpl.
    destruct min_inclusive, max_inclusive; lia.
  - intros x Hx Hy levelno. rewrite Hrange, Hx, Hy. simpl.
    destruct min_inclusive, max_inclusive; intuition (try done; lia).
Qed.

(** X15.  The levels a filter built by [__init__] lets through form an
    interval: a level between two levels that pass passes too. *)
Theorem level_range_filter_convex min_level max_level min_inclusive
    max_inclusive name self l1 l l2 :
  LevelRangeFilter.__init__ convert_level_to_int min_level max_level
    min_inclusive max_inclusive name = Returned self →
  l1 ≤ l ≤ l2 →
  LevelRangeFilter.filter self l1 = true →
  LevelRangeFilter.filter self l2 = true →
  LevelRangeFilter.filter self l = true.
Proof.
  intros Hinit Hbetween.
  destruct (init_returned _ _ _ _ _ _ Hinit) as (_ & _ & Hrange).
  rewrite !Hrange. intros [Hlo _] [_ Hhi]. split.
  - destruct (LevelRangeFilter.min_level self); simpl in *; [done | | done].
    destruct min_inclusive; lia.
  - destruct (LevelRangeFilter.max_level self); simpl in *; [done | | done].
    destruct max_inclusive; lia.
Qed.

End LevelRange.

(* ===================================================================== *)
(** * Matching the version pattern *)
(* ===================================================================== *)

Lemma app_String c (a b : string) : String c a +:+ b = String c (a +:+ b).
Proof. done. Qed.

Lemma app_empty_r (a : string) : a +:+ "" = a.
Proof.
  induction a as [|c a IH]; [done|]. by rewrite app_String, IH.
Qed.

Lemma length_app_string (a b : string) :
  String.length (a +:+ b) = (String.length a + String.length b)%nat.
Proof.
  induction a as [|c a IH]; [done|]. rewrite app_String. simpl. by rewrite IH.
Qed.

Lemma consumed_app (a rest : string) : consumed (a +:+ rest) rest = a.
Proof.
  unfold consumed. rewrite length_app_string.
  replace (String.length a + String.length rest - String.length rest)%nat
    with (String.length a) by lia.
  induction a as [|c a IH]; [by destruct rest|].
  rewrite app_String. simpl. by rewrite IH.
Qed.

Lemma consumed_all (a : string) : consumed a "" = a.
Proof. rewrite <- (app_empty_r a) at 1. apply consumed_app. Qed.

(** The greedy repetitions take the whole run when what follows then
    succeeds. *)
Lemma star_greedy {R : Type} cls (a rest : string) (k : string → option R)
    out :
  all_chars cls a = true → stops cls rest → k rest = Some out →
  star cls (a +:+ rest) k = Some out.
Proof.
  intros Ha Hstop Hk. induction a as [|c a IH].
  - destruct rest as [|c rest]; simpl in *; [done | by rewrite Hstop].
  - simpl in Ha. apply andb_true_iff in Ha as [Hc Ha].
    rewrite app_String. simpl. by rewrite Hc, IH.
Qed.

Lemma plus_greedy {R : Type} cls (a rest : string) (k : string → option R)
    out :
  a ≠ "" → all_chars cls a = true → stops cls rest → k rest = Some out →
  plus cls (a +:+ rest) k = Some out.
Proof.
  intros Hne Ha Hstop Hk. destruct a as [|c a]; [done|].
  simpl in Ha. apply andb_true_iff in Ha as [Hc Ha].
  rewrite app_String. simpl. rewrite Hc. by apply star_greedy.
Qed.

(** What a successful repetition has read. *)
Lemma star_inv {R : Type} cls (s : string) (k : string → option R) out :
  star cls s k = Some out →
  ∃ a s', s = a +:+ s' ∧ all_chars cls a = true ∧ k s' = Some out.
Proof.
  induction s as [|c s IH]; simpl; intros Hstar.
  - by exists "", "".
  - destruct (cls c) eqn:Hc; [|by exists "", (String c s)].
    destruct (star cls s k) as [out'|] eqn:Hrec;
      [|by exists "", (String c s)].
    injection Hstar as ->. destruct (IH eq_refl) as (a & s' & -> & Ha & Hk).
    exists (String c a), s'. simpl. by rewrite Hc, Ha.
Qed.

Lemma plus_inv {R : Type} cls (s : string) (k : string → option R) out :
  plus cls s k = Some out →
  ∃ a s', s = a +:+ s' ∧ a ≠ "" ∧ all_chars cls a = true ∧ k s' = Some out.
Proof.
  destruct s as [|c s]; simpl; [done|]. destruct (cls c) eqn:Hc; [|done].
  intros (a & s' & -> & Ha & Hk)%star_inv.
  exists (String c a), s'. simpl. by rewrite Hc, Ha.
Qed.

(** Under a pattern whose groups are all [\d+], whatever a match leaves in
    the groups is a non-empty string of digits no longer than the text. *)
Lemma rmatch_digit_strings n r :
  digit_groups_only r →
  ∀ s groups k out,
    (String.length s ≤ n)%nat →
    digit_strings n groups →
    (∀ s' groups',
       (String.length s' ≤ n)%nat → digit_strings n groups' →
       k s' groups' = Some out → digit_strings n out) →
    rmatch r s groups k = Some out →
    digit_strings n out.
Proof.
  induction r as [c|cls|cls|r1 IH1 r2 IH2|r1 IH1 r2 IH2|r IH|g r IH|];
    intros Hgroups s groups k out Hlen Hdigits Hk; simpl.
  - destruct s as [|x s]; [done|]. destruct (Ascii.eqb _ _); [|done].
    apply Hk; [simpl in Hlen; lia | done].
  - intros (a & s' & -> & _ & Hout)%star_inv.
    rewrite length_app_string in Hlen. eapply Hk; [|done..]. lia.
  - intros (a & s' & -> & _ & _ & Hout)%plus_inv.
    rewrite length_app_string in Hlen. eapply Hk; [|done..]. lia.
  - destruct Hgroups as [H1 H2]. apply IH1; try done.
    intros s' groups' Hlen' Hdigits'. by apply IH2.
  - destruct Hgroups as [H1 H2].
    destruct (rmatch r1 s groups k) as [out'|] eqn:Hfirst.
    + intros [= ->]. by eapply IH1.
    + by apply IH2.
  - destruct (rmatch r s groups k) as [out'|] eqn:Hfirst.
    + intros [= ->]. by eapply IH.
    + by apply Hk.
  - simpl in Hgroups. subst r. simpl.
    intros (a & s' & -> & Hne & Ha & Hout)%plus_inv.
    rewrite consumed_app in Hout. rewrite length_app_string in Hlen.
    eapply Hk; [| |done]; [lia|].
    intros g' v [[<- <-] | [_ Hold]]%lookup_insert_Some; [|by eapply Hdigits].
    repeat split; [done | done | lia].
  - destruct s as [|c [|c' s]]; [by apply Hk | | done].
    destruct (Ascii.eqb _ _); [by apply Hk | done].
Qed.

Lemma version_pattern_digit_strings s groups :
  re_match version_pattern s = Some groups →
  digit_strings (String.length s) groups.
Proof.
  apply rmatch_digit_strings; [by repeat split | done | |].
  - intros g v Hv. by rewrite lookup_empty in Hv.
  - by intros s' groups' _ Hdigits [= ->].
Qed.

Lemma digits_value_nonneg s : 0 ≤ digits_value s.
Proof.
  unfold digits_value.
  assert (∀ l acc, 0 ≤ acc →
            0 ≤ fold_left (λ acc c, 10 * acc + Z.of_nat (nat_of_ascii c - 48))
                          l acc) as Hfold.
  { induction l as [|c l IH]; intros acc Hacc; simpl; [done|].
    apply IH. lia. }
  by apply Hfold.
Qed.

Section ParseVersionProps.
Context {platform : Platform}.
Variable int_max_str_digits : option nat.

Lemma int_digits n s :
  s ≠ "" → all_chars is_digit s = true → (String.length s ≤ n)%nat →
  match int_max_str_digits with
  | Some limit => (n ≤ limit)%nat
  | None => True
  end →
  int int_max_str_digits s = Returned (digits_value s).
Proof.
  intros Hne Hdigits Hlen Hlimit. unfold int.
  rewrite (proj2 (truthy_spec s) Hne), Hdigits. simpl.
  destruct int_max_str_digits as [limit|]; [|done].
  by rewrite (proj2 (Nat.ltb_ge limit (String.length s))) by lia.
Qed.

(** X16.  On an executable whose name is within the digit limit of [int]
    (or where there is no limit) [parse_python_version] raises nothing:
    the groups it converts hold digits only.  It returns [(-1, -1)], or a
    major number that is not negative with a minor number that is [-1] or
    more. *)
Theorem parse_python_version_returns py_exec :
  within_digit_limit int_max_str_digits (Path_name py_exec) →
  ∃ major minor,
    parse_python_version int_max_str_digits py_exec = Returned (major, minor)
    ∧ ((major = -1 ∧ minor = -1) ∨ (0 ≤ major ∧ -1 ≤ minor)).
Proof.
  intros Hlimit. unfold parse_python_version.
  destruct (re_match version_pattern (Path_name py_exec)) as [groups|] eqn:Hm;
    [|exists (-1), (-1); by split; [|left]].
  apply version_pattern_digit_strings in Hm.
  destruct (groups !! "major") as [major_str|] eqn:Hmajor;
    [|exists (-1), (-1); by split; [|left]].
  destruct (Hm _ _ Hmajor) as (Hne & Hdigits & Hlen).
  rewrite (proj2 (truthy_spec major_str) Hne).
  rewrite (int_digits _ _ Hne Hdigits Hlen Hlimit).
  pose proof (digits_value_nonneg major_str).
  destruct (groups !! "minor") as [minor_str|] eqn:Hminor.
  - destruct (Hm _ _ Hminor) as (Hne' & Hdigits' & Hlen').
    rewrite (int_digits _ _ Hne' Hdigits' Hlen' Hlimit).
    pose proof (digits_value_nonneg minor_str).
    eexists _, _. split; [done|]. right. lia.
  - eexists _, _. split; [done|]. right. lia.
Qed.

Lemma digit_not_space c : is_digit c = true → is_space c = false.
Proof. by destruct c as [[] [] [] [] [] [] [] []]. Qed.

Lemma stops_space_digits (a rest : string) :
  a ≠ "" → all_chars is_digit a = true → stops is_space (a +:+ rest).
Proof.
  destruct a as [|c a]; [done|]. simpl. intros _ [Hc _]%andb_true_iff.
  by apply digit_not_space.
Qed.

(** The third number and the end of the pattern, on the empty rest and on
    a rest made of a dot and digits. *)
Lemma third_part_matches tail groups :
  third_rest tail →
  rmatch (Seq third_part Dollar) tail groups (λ _ out, Some out)
  = Some groups.
Proof.
  intros [-> | (c & Hne & Hdigits & ->)]; [done|].
  change ("." +:+ c) with (String "." c). simpl.
  rewrite <- (app_empty_r c) at 1.
  by rewrite (plus_greedy _ _ _ _ groups).
Qed.

Lemma third_rest_stops tail : third_rest tail → stops is_digit tail.
Proof. by intros [-> | (c & _ & _ & ->)]. Qed.

Lemma minor_part_matches b tail groups :
  b ≠ "" → all_chars is_digit b = true → third_rest tail →
  rmatch minor_part ("." +:+ b +:+ tail) groups
    (λ s' groups', rmatch (Seq third_part Dollar) s' groups'
                     (λ _ out, Some out))
  = Some (<[ "minor" := b ]> groups).
Proof.
  intros Hne Hdigits Htail.
  change ("." +:+ b +:+ tail) with (String "." (b +:+ tail)). simpl.
  rewrite (plus_greedy _ _ _ _ (<[ "minor" := b ]> groups)); try done.
  - by apply third_rest_stops.
  - rewrite consumed_app. by apply third_part_matches.
Qed.

Lemma numbers_part_major a :
  a ≠ "" → all_chars is_digit a = true →
  rmatch (Seq numbers_part (Seq third_part Dollar)) a ∅ (λ _ out, Some out)
  = Some {[ "major" := a ]}.
Proof.
  intros Hne Hdigits. simpl. rewrite <- (app_empty_r a) at 1.
  rewrite (plus_greedy _ _ _ _ {[ "major" := a ]}); try done.
  by rewrite consumed_all.
Qed.

Lemma numbers_part_major_minor a b tail :
  a ≠ "" → all_chars is_digit a = true →
  b ≠ "" → all_chars is_digit b = true → third_rest tail →
  rmatch (Seq numbers_part (Seq third_part Dollar))
    (a +:+ "." +:+ b +:+ tail) ∅ (λ _ out, Some out)
  = Some (<[ "minor" := b ]> {[ "major" := a ]}).
Proof.
  intros Hne Hdigits Hne' Hdigits' Htail. unfold numbers_part. cbn [rmatch].
  rewrite (plus_greedy _ _ _ _ (<[ "minor" := b ]> {[ "major" := a ]}));
    [done | done | done | reflexivity |].
  rewrite consumed_app.
  exact (minor_part_matches b tail _ Hne' Hdigits' Htail).
Qed.

Lemma numbers_part_absent tail :
  third_rest tail →
  rmatch (Seq numbers_part (Seq third_part Dollar)) tail ∅
    (λ _ out, Some out)
  = Some ∅.
Proof.
  intros Htail. pose proof (third_part_matches tail ∅ Htail) as Hthird.
  destruct Htail as [-> | (c & _ & _ & ->)]; [done|].
  change ("." +:+ c) with (String "." c) in *. simpl in *. by rewrite Hthird.
Qed.

Lemma spaces_part_matches r spaces s groups k out :
  all_chars is_space spaces = true → stops is_space s →
  rmatch r s groups k = Some out →
  rmatch (Seq spaces_part r) (spaces +:+ s) groups k = Some out.
Proof.
  intros Hspaces Hstop Hrest. simpl.
  by rewrite (star_greedy _ _ _ _ out).
Qed.

(** The six letters, in either case. *)
Lemma python_letters_match python s groups k :
  ascii_lower python = "python" →
  rmatch version_pattern (python +:+ s) groups k
  = rmatch (Seq spaces_part
              (Seq numbers_part (Seq third_part Dollar))) s groups k.
Proof.
  intros Hlower.
  destruct python as [|c1 [|c2 [|c3 [|c4 [|c5 [|c6 [|c7 rest]]]]]]];
    try done.
  injection Hlower as H1 H2 H3 H4 H5 H6.
  rewrite !app_String. unfold version_pattern.
  cbn [rmatch]. by rewrite H1, H2, H3, H4, H5, H6.
Qed.

Lemma python_letters_needed s groups k out :
  rmatch version_pattern s groups k = Some out →
  ∃ python rest, s = python +:+ rest ∧ ascii_lower python = "python".
Proof.
  unfold version_pattern. cbn [rmatch]. intros Hmatch.
  repeat match type of Hmatch with
         | match ?s with EmptyString => _ | String _ _ => _ end = _ =>
             destruct s as [|? ?]; [done|]
         | (if Ascii.eqb ?x ?y then _ else _) = _ =>
             destruct (Ascii.eqb_spec x y); [|done]
         end.
  eexists (String _ (String _ (String _ (String _ (String _ (String _ ""))))))
          , _.
  split; [done|]. simpl. by repeat f_equal.
Qed.

(** X17.  For an executable named [python], in any mix of cases, then
    white space or none, then a version of one, two or three numbers
    separated by dots, [parse_python_version] returns the first number as
    the major one and the second as the minor one, [-1] when there is no
    second; a third number is read over. *)
Theorem parse_python_version_reads_numbers py_exec python spaces a b c :
  ascii_lower python = "python" →
  all_chars is_space spaces = true →
  a ≠ "" → all_chars is_digit a = true →
  b ≠ "" → all_chars is_digit b = true →
  c ≠ "" → all_chars is_digit c = true →
  within_digit_limit int_max_str_digits (Path_name py_exec) →
  (Path_name py_exec = python +:+ spaces +:+ a →
   parse_python_version int_max_str_digits py_exec
   = Returned (digits_value a, -1))
  ∧ (Path_name py_exec = python +:+ spaces +:+ a +:+ "." +:+ b →
     parse_python_version int_max_str_digits py_exec
     = Returned (digits_value a, digits_value b))
  ∧ (Path_name py_exec
     = python +:+ spaces +:+ a +:+ "." +:+ b +:+ "." +:+ c →
     parse_python_version int_max_str_digits py_exec
     = Returned (digits_value a, digits_value b)).
Proof.
  intros Hpython Hspaces Ha Hda Hb Hdb Hc Hdc Hlimit.
  assert (∀ tail,
            third_rest tail →
            Path_name py_exec = python +:+ spaces +:+ a +:+ "." +:+ b +:+ tail →
            parse_python_version int_max_str_digits py_exec
            = Returned (digits_value a, digits_value b)) as Htwo.
  { intros tail Htail Hname. unfold parse_python_version, re_match.
    rewrite Hname, python_letters_match by done.
    rewrite (spaces_part_matches _ _ _ _ _
               (<[ "minor" := b ]> {[ "major" := a ]}));
      [|done | by apply stops_space_digits
        | by apply numbers_part_major_minor].
    rewrite lookup_insert_ne, lookup_singleton_eq by done.
    rewrite lookup_insert_eq, (proj2 (truthy_spec a) Ha).
    rewrite (int_digits (String.length (Path_name py_exec)) a),
            (int_digits (String.length (Path_name py_exec)) b);
      try done; rewrite Hname, !length_app_string; lia. }
  split; [|split].
  - intros Hname. unfold parse_python_version, re_match.
    rewrite Hname, python_letters_match by done.
    rewrite (spaces_part_matches _ _ _ _ _ {[ "major" := a ]});
      [|done | rewrite <- (app_empty_r a); by apply stops_space_digits
        | by apply numbers_part_major].
    rewrite lookup_singleton_eq, lookup_singleton_ne by done.
    rewrite (proj2 (truthy_spec a) Ha).
    rewrite (int_digits (String.length (Path_name py_exec)) a); try done.
    rewrite Hname, !length_app_string. lia.
  - intros Hname. apply (Htwo ""); [by left | by rewrite app_empty_r].
  - intros Hname. apply (Htwo ("." +:+ c)); [|done]. right. by exists c.
Qed.

(** X18.  Without a major number there is no version:
    [parse_python_version] returns [(-1, -1)] for a name that does not
    begin with [python] in some mix of cases, and for [python] followed by
    white space or none and then nothing or a dot and digits. *)
Theorem parse_python_version_without_major py_exec :
  ((∀ python rest, Path_name py_exec = python +:+ rest →
                   ascii_lower python ≠ "python") →
   parse_python_version int_max_str_digits py_exec = Returned (-1, -1))
  ∧ (∀ python spaces tail,
       ascii_lower python = "python" →
       all_chars is_space spaces = true →
       third_rest tail →
       Path_name py_exec = python +:+ spaces +:+ tail →
       parse_python_version int_max_str_digits py_exec = Returned (-1, -1)).
Proof.
  split.
  - intros Hother. unfold parse_python_version, re_match.
    destruct (rmatch version_pattern (Path_name py_exec) ∅ _) as [out|] eqn:Hm;
      [|done].
    apply python_letters_needed in Hm as (python & rest & Hname & Hlower).
    by destruct (Hother python rest Hname).
  - intros python spaces tail Hpython Hspaces Htail Hname.
    unfold parse_python_version, re_match.
    rewrite Hname, python_letters_match by done.
    rewrite (spaces_part_matches _ _ _ _ _ ∅);
      [done | done | | by apply numbers_part_absent].
    by destruct Htail as [-> | (c & _ & _ & ->)].
Qed.

End ParseVersionProps.

(* ===================================================================== *)
(** * The further theorems at work on the sample installation *)
(* ===================================================================== *)

Section SampleMore.
#[local] Existing Instance posix.

Lemma resolve_caller_module_first_match_witness :
  resolve_caller_module sample_ns 1 (Some 2) (ExStr "logging") true
    [frame_resolver; frame_logging; frame_app; frame_faulty]
  = Returned
      match List.find (module_accepted (prefix_set_of (ExStr "logging")))
                      ["logging"; "app.main"] with
      | Some module_name => Str module_name
      | None => current_or_missing sample_ns true
      end.
Proof.
  apply (resolve_caller_module_first_match sample_ns 1 (Some 2)
           (ExStr "logging") true
           [frame_resolver; frame_logging; frame_app; frame_faulty]
           ["logging"; "app.main"]).
  reflexivity.
Defined.

Lemma resolve_caller_filename_first_match_witness :
  resolve_caller_filename sample_ns sample_argv 1 (Some 4) ExNone true true
    true
    [frame_resolver; frame_logging; frame_logging; frame_venv; frame_app;
     frame_faulty]
  = Returned
      match List.find
              (λ p, negb (should_exclude (pattern_set_of sample_ns ExNone) p))
              ["/usr/lib/python3.12/logging/__init__.py";
               "/usr/lib/python3.12/logging/__init__.py";
               "/home/u/.VENV/lib/requests/api.py";
               "/srv/app/main.py"] with
      | Some caller_path => Str (rendered true caller_path)
      | None => fallbacks sample_ns sample_argv true true true
      end.
Proof.
  apply (resolve_caller_filename_first_match sample_ns sample_argv 1 (Some 4)
           ExNone true true true).
  reflexivity.
Defined.

Lemma negative_start_and_empty_depth_witness :
  resolve_caller_module sample_ns (-3) None ExNone true
    [frame_resolver; frame_app]
  = resolve_caller_module sample_ns 0 None ExNone true
      [frame_resolver; frame_app]
  ∧ resolve_caller_filename sample_ns sample_argv (-3) None ExNone true
      true true [frame_resolver; frame_app]
    = resolve_caller_filename sample_ns sample_argv 0 None ExNone true
        true true [frame_resolver; frame_app]
  ∧ resolve_caller_module sample_ns 1 (Some 0) ExNone true
      [frame_resolver; frame_app]
    = Returned (current_or_missing sample_ns true)
  ∧ resolve_caller_filename sample_ns sample_argv 1 (Some (-1)) ExNone true
      true true [frame_resolver; frame_app]
    = Returned (fallbacks sample_ns sample_argv true true true).
Proof.
  destruct (negative_start_and_empty_depth sample_ns sample_argv)
    as (Hmodule & Hfile & Hmodule0 & Hfile0).
  split; [|split; [|split]].
  - apply Hmodule. lia.
  - apply Hfile. lia.
  - apply Hmodule0. lia.
  - apply Hfile0. lia.
Defined.

Lemma subsumed_patterns_are_redundant_witness :
  resolve_caller_filename sample_ns sample_argv 1 None
    (ExColl ({[ "<stdin>" ]} ∪ {[ "<"; "site-packages" ]})) true true true
    [frame_resolver; plain_frame "__main__" "<stdin>"; frame_app]
  = resolve_caller_filename sample_ns sample_argv 1 None
      (ExColl {[ "<"; "site-packages" ]}) true true true
      [frame_resolver; plain_frame "__main__" "<stdin>"; frame_app]
  ∧ resolve_caller_module sample_ns 1 None
      (ExColl ({[ "utils.logkit" ]} ∪ {[ "utils."; "logging" ]})) true
      [frame_resolver; frame_logging; frame_app]
    = resolve_caller_module sample_ns 1 None
        (ExColl {[ "utils."; "logging" ]}) true
        [frame_resolver; frame_logging; frame_app].
Proof.
  destruct (subsumed_patterns_are_redundant sample_ns sample_argv)
    as (Hfile & Hmodule).
  split.
  - apply (Hfile 1 None {[ "<"; "site-packages" ]} "<stdin>" "<").
    + apply elem_of_union_l. by apply elem_of_singleton.
    + by exists "", "stdin>".
  - apply (Hmodule 1 None {[ "utils."; "logging" ]} "utils.logkit" "utils.").
    + apply elem_of_union_l. by apply elem_of_singleton.
    + by exists "logkit".
Defined.

Lemma empty_string_excludes_every_frame_witness :
  resolve_caller_filename sample_ns sample_argv 1 None (ExStr "") true true
    true [frame_resolver; frame_app; frame_run]
  = Returned (fallbacks sample_ns sample_argv true true true).
Proof.
  apply (proj1 (empty_string_excludes_every_frame sample_ns sample_argv)).
  by apply elem_of_singleton.
Defined.

Lemma bbb_always_returns_witness :
  ∃ v,
    bbb sample_ns_bak sample_argv 0 None true true
      (Fault (Exception "RuntimeError"))
    = Returned v
    ∧ ∃ s, v = Str s.
Proof.
  destruct (bbb_always_returns sample_ns_bak sample_argv 0 None true true
              (Fault (Exception "RuntimeError"))) as (v & Hv & Hstr & _).
  exists v. split; [exact Hv | by apply Hstr].
Defined.


Lemma bbb_negative_start_searches_the_tail_witness :
  bbb sample_ns_bak sample_argv (-1) None true true
    (Value (["/srv/app/main.py"] ++ ["/srv/run.py"])%list)
  = bbb sample_ns_bak sample_argv 0 None true true (Value ["/srv/run.py"]).
Proof.
  apply (proj1 (bbb_negative_start_searches_the_tail sample_ns_bak
                  sample_argv (-1) None true true ltac:(lia))).
  reflexivity.
Defined.

Lemma filter_writes_a_string_witness :
  ∃ s record',
    CallerInfoFilter.filter sample_ns sample_argv
      (CallerInfoFilter.__init__ "caller" (Some {[ "/srv/app/" ]}) None 0
         false)
      {[ "msg" := ObjStr "started" ]} logging_stack
    = Returned (record', true)
    ∧ record' !! "caller" = Some (ObjStr s).
Proof.
  apply (filter_writes_a_string sample_ns sample_argv
           (CallerInfoFilter.__init__ "caller" (Some {[ "/srv/app/" ]}) None
              0 false)).
  by repeat split.
Defined.

Lemma filter_idempotent_and_commuting_witness :
  ∃ record1 record2 both,
    CallerInfoFilter.filter sample_ns sample_argv
      (CallerInfoFilter.__init__ "caller" None None 0 true)
      {[ "msg" := ObjStr "started" ]} logging_stack
    = Returned (record1, true)
    ∧ CallerInfoFilter.filter sample_ns sample_argv
        (CallerInfoFilter.__init__ "script" None None 1 false)
        {[ "msg" := ObjStr "started" ]} logging_stack
      = Returned (record2, true)
    ∧ CallerInfoFilter.filter sample_ns sample_argv
        (CallerInfoFilter.__init__ "script" None None 1 false)
        record1 logging_stack
      = Returned (both, true)
    ∧ CallerInfoFilter.filter sample_ns sample_argv
        (CallerInfoFilter.__init__ "caller" None None 0 true)
        record2 logging_stack
      = Returned (both, true).
Proof.
  apply (proj2 (filter_idempotent_and_commuting sample_ns sample_argv)
           (CallerInfoFilter.__init__ "caller" None None 0 true)
           (CallerInfoFilter.__init__ "script" None None 1 false)).
  - by repeat split.
  - by repeat split.
  - discriminate.
Defined.

Lemma level_range_filter_range_witness :
  ∃ self,
    LevelRangeFilter.__init__ sample_convert (Some (LevelName "INFO"))
      (Some (LevelInt 40)) true false "" = Returned self
    ∧ LevelRangeFilter.min_level self = Level 20
    ∧ LevelRangeFilter.max_level self = Level 40
    ∧ ∀ levelno,
        LevelRangeFilter.filter self levelno = true
        ↔ above (Level 20) true levelno ∧ below (Level 40) false levelno.
Proof.
  apply (proj1 (level_range_filter_range sample_convert)
           (Some (LevelName "INFO")) (Some (LevelInt 40)) true false "").
  - by exists 20.
  - by exists 40.
Defined.

Lemma level_range_filter_special_ranges_witness :
  LevelRangeFilter.filter
    {| LevelRangeFilter.name := "";
       LevelRangeFilter.min_level := Level 30;
       LevelRangeFilter.max_level := Level 20;
       LevelRangeFilter._min_comparator := λ l, bound_le (Level 30) (Level l);
       LevelRangeFilter._max_comparator := λ l, bound_le (Level l) (Level 20)
    |} 25
  = false.
Proof.
  apply (proj1 (proj2 (level_range_filter_special_ranges sample_convert
                         (Some (LevelName "WARNING"))
                         (Some (LevelName "INFO")) true true "" _ eq_refl))
           30 20 eq_refl eq_refl).
  lia.
Defined.

Lemma level_range_filter_convex_witness :
  LevelRangeFilter.filter
    {| LevelRangeFilter.name := "";
       LevelRangeFilter.min_level := Level 20;
       LevelRangeFilter.max_level := Level 40;
       LevelRangeFilter._min_comparator := λ l, bound_le (Level 20) (Level l);
       LevelRangeFilter._max_comparator := λ l, bound_le (Level l) (Level 40)
    |} 30
  = true.
Proof.
  apply (level_range_filter_convex sample_convert
           (Some (LevelName "INFO")) (Some (LevelName "ERROR")) true true ""
           _ 20 30 40 eq_refl); [lia | reflexivity | reflexivity].
Defined.

Lemma parse_python_version_returns_witness :
  ∃ major minor,
    parse_python_version (Some 4300%nat) "/home/u/.venv/bin/python3.12"
    = Returned (major, minor)
    ∧ ((major = -1 ∧ minor = -1) ∨ (0 ≤ major ∧ -1 ≤ minor)).
Proof.
  apply (parse_python_version_returns (Some 4300%nat)
           "/home/u/.venv/bin/python3.12").
  simpl. vm_compute. lia.
Defined.

Lemma parse_python_version_reads_numbers_witness :
  parse_python_version (Some 4300%nat) "/home/u/.venv/bin/Python 3.12.1"
  = Returned (digits_value "3", digits_value "12").
Proof.
  apply (proj2 (proj2 (parse_python_version_reads_numbers (Some 4300%nat)
                         "/home/u/.venv/bin/Python 3.12.1"
                         "Python" " " "3" "12" "1"
                         eq_refl eq_refl ltac:(discriminate) eq_refl
                         ltac:(discriminate) eq_refl
                         ltac:(discriminate) eq_refl
                         ltac:(simpl; vm_compute; lia)))).
  reflexivity.
Defined.

Lemma parse_python_version_without_major_witness :
  parse_python_version (Some 4300%nat) "/home/u/.venv/bin/python.3"
  = Returned (-1, -1).
Proof.
  apply (proj2 (parse_python_version_without_major (Some 4300%nat)
                  "/home/u/.venv/bin/python.3") "python" "" ".3" eq_refl
           eq_refl).
  - right. by exists "3".
  - reflexivity.
Defined.

End SampleMore.
